(** * The proof-orchestration core of the output proposer

    A shallow embedding of [op-proposer/proposer/prove.go]: the scheduler
    phases [ProcessPendingProofs], [RequestQueuedProofs] and
    [DeriveNewSpanBatches], and the prover client
    ([RequestKonaProof], [RequestSpanProof], [RequestAggProof],
    [RequestProofFromServer], [GetProofStatus]).

    The proposer talks to three collaborators that are not part of
    [prove.go]: the proof store [l.db], the prover's HTTP service and the
    chain.  The store is an interface here ([ProofDB]); the HTTP service and
    the chain are fields of an environment record ([Env]).  Every function
    of [prove.go] is written once, against the interface, in a monad that
    threads the world (store state, clock, trace of the calls made) and
    carries Go's [return err]. *)

From Stdlib Require Import ZArith List String Bool Lia.
Import ListNotations.

Set Warnings "-register-all".

Open Scope string_scope.
Open Scope list_scope.
Open Scope Z_scope.

(** ** Machine integers

    Block numbers are [uint64]; [time.Now().Unix()], [ProofRequestTime] and
    [MaxProofTime] are [int64].  Values are kept in [Z]; each operation of
    the source wraps as Go's does. *)

Definition two64 : Z := 2 ^ 64.
Definition two53 : Z := 2 ^ 53.

Definition u64 (z : Z) : Z := z mod two64.
Definition u64_add (a b : Z) : Z := u64 (a + b).
Definition u64_sub (a b : Z) : Z := u64 (a - b).
Definition u64_div (a b : Z) : Z := a / b.

(** Two's complement wrap of a sum of [int64] values. *)
Definition i64 (z : Z) : Z := (z + 2 ^ 63) mod two64 - 2 ^ 63.
Definition i64_add (a b : Z) : Z := i64 (a + b).

(** [float64(x)] for a [uint64] [x]: the nearest binary64 value, ties to
    even.  Such a value is an integer, so it is kept in [Z].  A binary64 has
    a 53-bit significand: in [[2^k, 2^(k+1))] the representable values are
    the multiples of [2^(k-52)]. *)
Definition float64_of_uint64 (x : Z) : Z :=
  let k := Z.log2 x in
  if k <? 53 then x
  else
    let ulp := 2 ^ (k - 52) in
    let lo := (x / ulp) * ulp in
    let r := x - lo in
    if 2 * r <? ulp then lo
    else if ulp <? 2 * r then lo + ulp
    else if Z.even (x / ulp) then lo else lo + ulp.

(** [math.Min] on two non-negative finite values. *)
Definition math_Min (a b : Z) : Z := Z.min a b.

(** [uint64(f)] for a non-negative integral [f].  When [f] does not fit
    ([f = 2^64], reached only from [float64] of the top 1024 values) Go
    leaves the result to the implementation: [oor] stands for it. *)
Definition uint64_of_float64 (oor : Z) (f : Z) : Z :=
  if f <? two64 then f else oor.

(** ** Errors and results *)

Definition bytes := list Byte.byte.

(** Go [error] values.  The three named ones are those the source compares
    against ([ent.IsNotFound], [reassemble.NoSpanBatchFoundError],
    [reassemble.MaxDeviationExceededError]); [Errorf msg e] is
    [fmt.Errorf(msg + ": %w", e)]. *)
Inductive error : Type :=
| NotFoundError
| NoSpanBatchFoundError
| MaxDeviationExceededError
| ErrorNew (msg : string)
| Errorf (msg : string) (cause : error).

(** A Go [error] result: [None] is [nil]. *)
Definition goerr := option error.

Inductive result (A : Type) : Type :=
| Ok (a : A)
| Err (e : error).
Arguments Ok {A} a.
Arguments Err {A} e.

Definition error_eqb_NoSpanBatchFound (e : error) : bool :=
  match e with NoSpanBatchFoundError => true | _ => false end.
Definition error_eqb_MaxDeviationExceeded (e : error) : bool :=
  match e with MaxDeviationExceededError => true | _ => false end.
Definition ent_IsNotFound (e : error) : bool :=
  match e with NotFoundError => true | _ => false end.

(** ** The entity [ent.ProofRequest] *)

Module proofrequest.
Inductive Type_ : Set := TypeSPAN | TypeAGG.
Inductive Status : Set := StatusUNREQ | StatusREQ | StatusCOMPLETE | StatusFAILED.

Definition Type_eqb (a b : Type_) : bool :=
  match a, b with
  | TypeSPAN, TypeSPAN | TypeAGG, TypeAGG => true
  | _, _ => false
  end.

Definition Status_eqb (a b : Status) : bool :=
  match a, b with
  | StatusUNREQ, StatusUNREQ | StatusREQ, StatusREQ
  | StatusCOMPLETE, StatusCOMPLETE | StatusFAILED, StatusFAILED => true
  | _, _ => false
  end.
End proofrequest.

Module ent.
Record ProofRequest : Type := mkProofRequest {
  ID : Z;
  Type_ : proofrequest.Type_;
  StartBlock : Z;
  EndBlock : Z;
  Status : proofrequest.Status;
  ProverRequestID : string;
  ProofRequestTime : Z;
  Proof_ : bytes;
  L1BlockNumber : Z;
  L1BlockHash : string
}.
End ent.

(** ** JSON bodies

    [json.Marshal] of the two request structs, as a JSON value.  A [[]byte]
    field is written by Go as a base64 string ([JBase64]). *)
Inductive Json : Type :=
| JNull
| JNumber (n : Z)
| JString (s : string)
| JBase64 (b : bytes)
| JArray (items : list Json)
| JObject (fields : list (string * Json)).

Definition json_field (name : string) (j : Json) : option Json :=
  match j with
  | JObject fields =>
      match find (fun kv => String.eqb (fst kv) name) fields with
      | Some kv => Some (snd kv)
      | None => None
      end
  | _ => None
  end.

(** [type SpanProofRequest struct { Start uint64 `json:"start"`; End uint64 `json:"end"` }] *)
Record SpanProofRequest : Type := { span_Start : Z; span_End : Z }.

(** [type AggProofRequest struct { Subproofs [][]byte `json:"subproofs"` }] *)
Record AggProofRequest : Type := { agg_Subproofs : list bytes }.

(** [type ProofResponse struct { ProofID string `json:"id"` }] *)
Record ProofResponse : Type := { resp_ProofID : string }.

(** [type ProofStatus struct { Status string `json:"status"`; Proof []byte `json:"proof"` }] *)
Record ProofStatus : Type := { status_Status : string; status_Proof : bytes }.

Definition json_Marshal_SpanProofRequest (r : SpanProofRequest) : Json :=
  JObject [("start", JNumber (span_Start r)); ("end", JNumber (span_End r))].

Definition json_Marshal_AggProofRequest (r : AggProofRequest) : Json :=
  JObject [("subproofs", JArray (map JBase64 (agg_Subproofs r)))].

(** ** HTTP *)

Record Request : Type := {
  Method : string;
  URL : string;
  ContentType : option string;
  ReqBody : option Json
}.

(** What the client sees of a response: the outcome of
    [ioutil.ReadAll(resp.Body)], the bytes read and the read error. *)
Record Response : Type := { ReadAll : string * goerr }.

(** ** The trace of calls made *)

Inductive DBCall : Type :=
| CallAddProof (id : Z) (proof : bytes)
| CallUpdateProofStatus (id : Z) (status : string)
| CallNewEntry (ty : string) (s e : Z)
| CallSetProverRequestID (id : Z) (rid : string)
| CallAddL1BlockInfo (s e n : Z) (h : string).

Inductive Event : Type :=
| EvDB (c : DBCall) (r : goerr)
| EvHTTP (req : Request).

(** ** The store interface

    The methods of [l.db] that [prove.go] calls, with the arguments of the
    call sites.  A write returns Go's [error] and the next store state.
    [UpdateProofStatus] also receives the wall clock of the call, which the
    store stamps as the request time. *)
Class ProofDB (S : Type) : Type := {
  GetAllPendingProofs : S -> result (list ent.ProofRequest);
  GetAllUnrequestedProofs : S -> result (list ent.ProofRequest);
  GetLatestEndBlock : S -> result Z;
  GetSubproofs : Z -> Z -> S -> result (list bytes);
  AddProof : Z -> bytes -> S -> goerr * S;
  UpdateProofStatus : Z -> Z -> string -> S -> goerr * S;
  NewEntry : string -> Z -> Z -> S -> goerr * S;
  SetProverRequestID : Z -> string -> S -> goerr * S;
  AddL1BlockInfo : Z -> Z -> Z -> string -> S -> goerr * S
}.

(** ** The world and the monad *)

Record World (S : Type) : Type := mkWorld {
  db : S;
  now : Z;
  trace : list Event
}.
Arguments mkWorld {S} db now trace.
Arguments db {S} w.
Arguments now {S} w.
Arguments trace {S} w.

(** A Go function body: it runs on a world and either falls through with a
    value ([Ok]) or leaves by [return err] ([Err]); the world is kept in
    both cases. *)
Definition M (S A : Type) : Type := World S -> result A * World S.

Definition ret {S A} (a : A) : M S A := fun w => (Ok a, w).

Definition fail {S A} (e : error) : M S A := fun w => (Err e, w).

Definition bind {S A B} (m : M S A) (k : A -> M S B) : M S B :=
  fun w =>
    match m w with
    | (Ok a, w') => k a w'
    | (Err e, w') => (Err e, w')
    end.

Declare Scope go_scope.
Delimit Scope go_scope with go.
Notation "x <- m ;; k" := (bind m (fun x => k))
  (at level 61, m at next level, right associativity) : go_scope.
Notation "' p <- m ;; k" := (bind m (fun x => let p := x in k))
  (at level 61, p pattern, m at next level, right associativity) : go_scope.
Notation "m ;; k" := (bind m (fun _ => k))
  (at level 61, right associativity) : go_scope.
Open Scope go_scope.

(** [if err != nil { return err }] *)
Definition check {S} (err : goerr) : M S unit :=
  match err with
  | None => ret tt
  | Some e => fail e
  end.

(** The call [v, err := f(...)] whose error is looked at by the caller
    instead of being returned. *)
Definition try_ {S A} (m : M S A) : M S (result A) :=
  fun w =>
    match m w with
    | (Ok a, w') => (Ok (Ok a), w')
    | (Err e, w') => (Ok (Err e), w')
    end.

Definition when_ {S} (b : bool) (m : M S unit) : M S unit :=
  if b then m else ret tt.

(** [for _, x := range xs { body }], left by the first [return err]. *)
Fixpoint forM_ {S A} (xs : list A) (body : A -> M S unit) : M S unit :=
  match xs with
  | [] => ret tt
  | x :: xs' => body x ;; forM_ xs' body
  end.

Definition emit {S} (ev : Event) : M S unit :=
  fun w => (Ok tt, mkWorld (db w) (now w) (trace w ++ [ev])).

Definition time_Now_Unix {S} : M S Z := fun w => (Ok (now w), w).

(** ** Configuration and environment *)

(** The fields of [l.DriverSetup.Cfg] that [prove.go] reads. *)
Record Config : Type := {
  KonaServerUrl : string;
  MaxProofTime : Z;
  MaxBlockRangePerSpanProof : Z;
  MaxSpanBatchDeviation : Z
}.

(** What lies outside [prove.go] and outside the store:
    - [url_ok]: whether [http.NewRequest] accepts the URL;
    - [client_Do]: the prover's answer to a request, which may depend on
      everything that happened before (the trace);
    - [json_Unmarshal_*]: [json.Unmarshal(body, &v)], from the bytes and the
      value [v] holds before the call to the value after it and the error;
    - [checkpointBlockHash]: the proposer's L1 checkpoint call;
    - [LatestBlockNumber]: the output oracle's read;
    - [FetchBatchesFromChain]: the outcome of the batch download, whose body
      is I/O only;
    - [GetSpanBatchRange]: [reassemble.GetSpanBatchRange], reached through
      [GenerateSpanBatchRange];
    - [float_oor]: see [uint64_of_float64]. *)
Record Env : Type := {
  Cfg : Config;
  url_ok : string -> bool;
  client_Do : list Event -> Request -> result Response;
  json_Unmarshal_ProofResponse : string -> ProofResponse -> ProofResponse * goerr;
  json_Unmarshal_ProofStatus : string -> ProofStatus -> ProofStatus * goerr;
  checkpointBlockHash : list Event -> result (Z * string);
  LatestBlockNumber : result Z;
  FetchBatchesFromChain : Z -> goerr;
  GetSpanBatchRange : Z -> Z -> Z * Z * goerr;
  float_oor : Z
}.

Section Proposer.
Context {S : Type} {DB : ProofDB S}.
Variable env : Env.

Local Abbreviation Go := (M S).

(** *** Calls into the store *)

Definition db_read {A} (op : S -> result A) : Go A :=
  fun w => (op (db w), w).

Definition db_write (c : DBCall) (op : S -> goerr * S) : Go unit :=
  fun w =>
    let '(r, s') := op (db w) in
    (match r with None => Ok tt | Some e => Err e end,
     mkWorld s' (now w) (trace w ++ [EvDB c r])).

Definition db_AddProof (id : Z) (proof : bytes) : Go unit :=
  db_write (CallAddProof id proof) (AddProof id proof).

Definition db_UpdateProofStatus (id : Z) (status : string) : Go unit :=
  fun w => db_write (CallUpdateProofStatus id status)
                    (UpdateProofStatus (now w) id status) w.

Definition db_NewEntry (ty : string) (s e : Z) : Go unit :=
  db_write (CallNewEntry ty s e) (NewEntry ty s e).

Definition db_SetProverRequestID (id : Z) (rid : string) : Go unit :=
  db_write (CallSetProverRequestID id rid) (SetProverRequestID id rid).

Definition db_AddL1BlockInfo (s e n : Z) (h : string) : Go unit :=
  db_write (CallAddL1BlockInfo s e n h) (AddL1BlockInfo s e n h).

(** [fmt.Errorf(msg + ": %w", err)] around a failing call. *)
Definition wrap {A} (msg : string) (m : Go A) : Go A :=
  fun w =>
    match m w with
    | (Err e, w') => (Err (Errorf msg e), w')
    | r => r
    end.

(** *** The prover client *)

Definition http_NewRequest (method url : string) (body : option Json)
  : result Request :=
  if url_ok env url
  then Ok {| Method := method; URL := url; ContentType := None; ReqBody := body |}
  else Err (ErrorNew "invalid URL").

Definition Header_Set_ContentType (req : Request) (v : string) : Request :=
  {| Method := Method req; URL := URL req;
     ContentType := Some v; ReqBody := ReqBody req |}.

(** [client.Do(req)]: the request goes out and is recorded. *)
Definition http_Do (req : Request) : Go Response :=
  fun w =>
    (client_Do env (trace w) req,
     mkWorld (db w) (now w) (trace w ++ [EvHTTP req])).

(** [RequestProofFromServer].  The two [fmt.Errorf] results for a failed
    read and a failed decode are dropped by the source, so neither error
    leaves the function. *)
Definition RequestProofFromServer (jsonBody : Json) : Go string :=
  match http_NewRequest "POST" (KonaServerUrl (Cfg env)) (Some jsonBody) with
  | Err e => fail (Errorf "failed to create request" e)
  | Ok req =>
      let req := Header_Set_ContentType req "application/json" in
      resp <- wrap "failed to send request" (http_Do req) ;;
      let '(body, _) := ReadAll resp in
      let '(response, _) :=
        json_Unmarshal_ProofResponse env body {| resp_ProofID := "" |} in
      ret (resp_ProofID response)
  end.

(** [GetProofStatus]; on [return "", nil, err] the caller sees the error
    only. *)
Definition GetProofStatus (proofId : string) : Go (string * bytes) :=
  match http_NewRequest "GET"
          (KonaServerUrl (Cfg env) ++ "/status/" ++ proofId)%string None with
  | Err e => fail (Errorf "failed to create request" e)
  | Ok req =>
      resp <- wrap "failed to send request" (http_Do req) ;;
      let '(body, _) := ReadAll resp in
      let '(response, _) :=
        json_Unmarshal_ProofStatus env body
          {| status_Status := ""; status_Proof := [] |} in
      ret (status_Status response, status_Proof response)
  end.

Definition RequestSpanProof (start end_ : Z) : Go string :=
  let requestBody := {| span_Start := start; span_End := end_ |} in
  let jsonBody := json_Marshal_SpanProofRequest requestBody in
  RequestProofFromServer jsonBody.

Definition RequestAggProof (start end_ : Z) : Go string :=
  subproofs <- wrap "failed to get subproofs" (db_read (GetSubproofs start end_)) ;;
  let requestBody := {| agg_Subproofs := subproofs |} in
  let jsonBody := json_Marshal_AggProofRequest requestBody in
  RequestProofFromServer jsonBody.

(** [RequestKonaProof].  The final [else] of the source (a type that is
    neither AGG nor SPAN) has no value to run on: the enum has two. *)
Definition RequestKonaProof (p : ent.ProofRequest) : Go unit :=
  let prevConfirmedBlock := u64_sub (ent.StartBlock p) 1 in
  proofId <-
    match ent.Type_ p with
    | proofrequest.TypeAGG =>
        wrap "failed to request AGG proof"
             (RequestAggProof prevConfirmedBlock (ent.EndBlock p))
    | proofrequest.TypeSPAN =>
        wrap "failed to request SPAN proof"
             (RequestSpanProof prevConfirmedBlock (ent.EndBlock p))
    end ;;
  wrap "failed to set prover request ID"
       (db_SetProverRequestID (ent.ID p) proofId).

(** *** ProcessPendingProofs *)

(** [for i := 0; i < 2; i++ { NewEntry("SPAN", tmpStart, tmpEnd);
    tmpStart = tmpEnd + 1; tmpEnd = req.EndBlock }], with [n] the
    iterations left. *)
Fixpoint splitLoop (req : ent.ProofRequest) (n : nat) (tmpStart tmpEnd : Z)
  : Go unit :=
  match n with
  | O => ret tt
  | Datatypes.S n' =>
      db_NewEntry "SPAN" tmpStart tmpEnd ;;
      splitLoop req n' (u64_add tmpEnd 1) (ent.EndBlock req)
  end.

(** The block under [if timeout { ... }]. *)
Definition onTimeout (req : ent.ProofRequest) : Go unit :=
  db_UpdateProofStatus (ent.ID req) "FAILED" ;;
  when_ (proofrequest.Type_eqb (ent.Type_ req) proofrequest.TypeAGG)
        (db_NewEntry "AGG" (ent.StartBlock req) (ent.EndBlock req)) ;;
  let tmpStart := ent.StartBlock req in
  let tmpEnd :=
    u64_add tmpStart (u64_div (u64_sub (ent.EndBlock req) tmpStart) 2) in
  splitLoop req 2 tmpStart tmpEnd.

(** The body of the loop over the pending requests.  The error of
    [GetProofStatus] is not looked at: on it the status is the empty
    string. *)
Definition processPending (req : ent.ProofRequest) : Go unit :=
  r <- try_ (GetProofStatus (ent.ProverRequestID req)) ;;
  let '(status, proof) :=
    match r with Ok sp => sp | Err _ => ("", []) end in
  when_ (String.eqb status "PROOF_FULFILLED")
        (db_AddProof (ent.ID req) proof) ;;
  unix <- time_Now_Unix ;;
  let timeout :=
    unix >? i64_add (ent.ProofRequestTime req) (MaxProofTime (Cfg env)) in
  when_ timeout (onTimeout req).

Definition ProcessPendingProofs : Go unit :=
  reqs <- db_read GetAllPendingProofs ;;
  forM_ reqs processPending.

(** *** RequestQueuedProofs *)

(** The closure started by [go func(p ent.ProofRequest) { ... }(proof)].
    [p] is the copy made when the [go] statement runs.  [proof] is the
    loop variable of the enclosing [range], which the closure captures:
    under the loop semantics before Go 1.22 there is one such variable
    for the whole loop, so each use of [proof.ID] in the closure reads
    whatever entry the loop has reached at that moment.  The closure uses
    it twice for a store call: [proofAtREQ] is the entry the variable
    holds when [UpdateProofStatus(proof.ID, "REQ")] is called, and
    [proofAtFAILED] the entry it holds when
    [UpdateProofStatus(proof.ID, "FAILED")] is called.  The closure also
    assigns the captured [err]; the enclosing function never reads it
    again. *)
Definition worker (proofAtREQ proofAtFAILED p : ent.ProofRequest) : Go unit :=
  r <- try_ (db_UpdateProofStatus (ent.ID proofAtREQ) "REQ") ;;
  match r with
  | Err _ => ret tt
  | Ok _ =>
      r <- try_ (RequestKonaProof p) ;;
      match r with
      | Err _ =>
          _ <- try_ (db_UpdateProofStatus (ent.ID proofAtFAILED) "FAILED") ;;
          ret tt
      | Ok _ => ret tt
      end
  end.

(** The AGG branch at the head of the loop body.  The result of
    [AddL1BlockInfo] is not looked at. *)
Definition checkpointStep (proof : ent.ProofRequest) : Go unit :=
  when_ (proofrequest.Type_eqb (ent.Type_ proof) proofrequest.TypeAGG)
    ('(blockNumber, blockHash) <-
       (fun w => (checkpointBlockHash env (trace w), w)) ;;
     _ <- try_ (db_AddL1BlockInfo (ent.StartBlock proof) (ent.EndBlock proof)
                                  blockNumber blockHash) ;;
     ret tt).

(** The loop over the unrequested entries.  Goroutines are run one at a
    time, in the order they were started, and each runs to its end before
    the loop goes on, so both readings a goroutine makes of the loop
    variable give the same entry; [sched] says, per iteration, how many of
    the started and not yet run goroutines run before the loop variable
    moves on ([hd 0]: none).  Those left when the function returns run
    afterwards and read the loop variable's last value.  The world
    returned is the one after all of them. *)
Fixpoint rangeUnrequested (sched : list nat) (rest queue : list ent.ProofRequest)
         (proof : ent.ProofRequest) : Go unit :=
  match rest with
  | [] => forM_ queue (worker proof proof)
  | x :: rest' =>
      r <- try_ (checkpointStep x) ;;
      match r with
      | Err e => forM_ queue (worker x x) ;; fail e
      | Ok _ =>
          let queue := queue ++ [x] in
          let k := hd 0%nat sched in
          forM_ (firstn k queue) (worker x x) ;;
          rangeUnrequested (tl sched) rest' (skipn k queue) x
      end
  end.

Definition zeroProofRequest : ent.ProofRequest :=
  ent.mkProofRequest 0 proofrequest.TypeSPAN 0 0 proofrequest.StatusUNREQ
                     "" 0 [] 0 "".

Definition RequestQueuedProofs (sched : list nat) : Go unit :=
  unrequestedProofs <-
    wrap "failed to get unrequested proofs" (db_read GetAllUnrequestedProofs) ;;
  rangeUnrequested sched unrequestedProofs [] zeroProofRequest.

(** *** DeriveNewSpanBatches

    Both [for] loops of the source have no bound of their own, so they
    take fuel; [None] is a run that used it up. *)

Fixpoint chunkLoop (fuel : nat) (end_ tmpStart : Z) (w : World S)
  : option (result unit * World S) :=
  match fuel with
  | O => None
  | Datatypes.S fuel' =>
      let maxEnd :=
        u64_sub (u64_add tmpStart (MaxBlockRangePerSpanProof (Cfg env))) 1 in
      let tmpEnd :=
        uint64_of_float64 (float_oor env)
          (math_Min (float64_of_uint64 maxEnd) (float64_of_uint64 end_)) in
      match db_NewEntry "SPAN" tmpStart tmpEnd w with
      | (Err e, w') => Some (Err e, w')
      | (Ok _, w') =>
          if tmpEnd =? end_ then Some (Ok tt, w')
          else chunkLoop fuel' end_ (u64_add tmpEnd 1) w'
      end
  end.

Fixpoint spanBatchLoop (fuel : nat) (nextBlock : Z) (w : World S)
  : option (result unit * World S) :=
  match fuel with
  | O => None
  | Datatypes.S fuel' =>
      let '(start, end_, err) :=
        GetSpanBatchRange env nextBlock (MaxSpanBatchDeviation (Cfg env)) in
      let proceed :=
        match chunkLoop fuel' end_ nextBlock w with
        | None => None
        | Some (Err e, w') => Some (Err e, w')
        | Some (Ok _, w') => spanBatchLoop fuel' (u64_add end_ 1) w'
        end in
      match err with
      | None => proceed
      | Some e =>
          if error_eqb_NoSpanBatchFound e then Some (Ok tt, w)
          else if error_eqb_MaxDeviationExceeded e then proceed
          else Some (Err e, w)
      end
  end.

Definition DeriveNewSpanBatches (fuel : nat) (w : World S)
  : option (result unit * World S) :=
  let continue_ (latestEndBlock : Z) :=
    let nextBlock := u64_add latestEndBlock 1 in
    match FetchBatchesFromChain env nextBlock with
    | Some e => Some (Err e, w)
    | None => spanBatchLoop fuel nextBlock w
    end in
  match GetLatestEndBlock (db w) with
  | Ok latestEndBlock => continue_ latestEndBlock
  | Err e =>
      if ent_IsNotFound e then
        match LatestBlockNumber env with
        | Err e' => Some (Err (Errorf "failed to get latest output index" e'), w)
        | Ok latestEndBlockU256 => continue_ (u64 latestEndBlockU256)
        end
      else Some (Err e, w)
  end.

End Proposer.

(** ** The in-memory proof store

    Modelled from the spec: the rows and the operations of the proof store,
    whose package is not among the sources, written after section 4.1 of
    the spec; [MemDB] below makes them an instance of [ProofDB]. *)

Module Store.
Import proofrequest.

Record t : Type := mk { rows : list ent.ProofRequest; nextID : Z }.

(** Which of the store's refusals are in force: refusing a status change
    that is not one of the three arrows, and refusing an insert that
    overlaps a live entry of the same type. *)
Record Checks : Type := { check_transition : bool; check_duplicate : bool }.

Definition parse_Type (s : string) : option Type_ :=
  if String.eqb s "SPAN" then Some TypeSPAN
  else if String.eqb s "AGG" then Some TypeAGG
  else None.

Definition parse_Status (s : string) : option Status :=
  if String.eqb s "UNREQ" then Some StatusUNREQ
  else if String.eqb s "REQ" then Some StatusREQ
  else if String.eqb s "COMPLETE" then Some StatusCOMPLETE
  else if String.eqb s "FAILED" then Some StatusFAILED
  else None.

(** [UNREQ -> REQ -> (COMPLETE | FAILED)] *)
Definition allowed (from to : Status) : bool :=
  match from, to with
  | StatusUNREQ, StatusREQ
  | StatusREQ, StatusCOMPLETE
  | StatusREQ, StatusFAILED => true
  | _, _ => false
  end.

Definition overlaps (r : ent.ProofRequest) (s e : Z) : bool :=
  Z.max (ent.StartBlock r) s <=? Z.min (ent.EndBlock r) e.

Definition live (r : ent.ProofRequest) : bool :=
  negb (Status_eqb (ent.Status r) StatusFAILED).

Definition conflicts (ty : Type_) (s e : Z) (r : ent.ProofRequest) : bool :=
  Type_eqb (ent.Type_ r) ty && live r && overlaps r s e.

Definition newRow (id : Z) (ty : Type_) (s e : Z) : ent.ProofRequest :=
  ent.mkProofRequest id ty s e StatusUNREQ "" 0 [] 0 "".

Definition findRow (id : Z) (rs : list ent.ProofRequest) : option ent.ProofRequest :=
  find (fun r => ent.ID r =? id) rs.

Definition updateRows (id : Z) (f : ent.ProofRequest -> ent.ProofRequest)
           (rs : list ent.ProofRequest) : list ent.ProofRequest :=
  map (fun r => if ent.ID r =? id then f r else r) rs.

Definition setStatus (clock : Z) (st : Status) (r : ent.ProofRequest)
  : ent.ProofRequest :=
  ent.mkProofRequest (ent.ID r) (ent.Type_ r) (ent.StartBlock r) (ent.EndBlock r)
    st (ent.ProverRequestID r)
    (if Status_eqb st StatusREQ then clock else ent.ProofRequestTime r)
    (ent.Proof_ r) (ent.L1BlockNumber r) (ent.L1BlockHash r).

Definition setProof (proof : bytes) (r : ent.ProofRequest) : ent.ProofRequest :=
  ent.mkProofRequest (ent.ID r) (ent.Type_ r) (ent.StartBlock r) (ent.EndBlock r)
    StatusCOMPLETE (ent.ProverRequestID r) (ent.ProofRequestTime r)
    proof (ent.L1BlockNumber r) (ent.L1BlockHash r).

Definition setProverRequestID (rid : string) (r : ent.ProofRequest)
  : ent.ProofRequest :=
  ent.mkProofRequest (ent.ID r) (ent.Type_ r) (ent.StartBlock r) (ent.EndBlock r)
    (ent.Status r) rid (ent.ProofRequestTime r)
    (ent.Proof_ r) (ent.L1BlockNumber r) (ent.L1BlockHash r).

Definition setL1 (n : Z) (h : string) (r : ent.ProofRequest) : ent.ProofRequest :=
  ent.mkProofRequest (ent.ID r) (ent.Type_ r) (ent.StartBlock r) (ent.EndBlock r)
    (ent.Status r) (ent.ProverRequestID r) (ent.ProofRequestTime r)
    (ent.Proof_ r) n h.

Definition hasStatus (st : Status) (r : ent.ProofRequest) : bool :=
  Status_eqb (ent.Status r) st.

(** [(start_block asc, id asc)] *)
Definition before (a b : ent.ProofRequest) : bool :=
  (ent.StartBlock a <? ent.StartBlock b)
  || ((ent.StartBlock a =? ent.StartBlock b) && (ent.ID a <=? ent.ID b)).

Fixpoint insertSorted (a : ent.ProofRequest) (l : list ent.ProofRequest)
  : list ent.ProofRequest :=
  match l with
  | [] => [a]
  | b :: l' => if before a b then a :: l else b :: insertSorted a l'
  end.

Definition sortRows (l : list ent.ProofRequest) : list ent.ProofRequest :=
  fold_right insertSorted [] l.

Definition getAllPendingProofs (s : t) : result (list ent.ProofRequest) :=
  Ok (filter (hasStatus StatusREQ) (rows s)).

Definition getAllUnrequestedProofs (s : t) : result (list ent.ProofRequest) :=
  Ok (sortRows (filter (hasStatus StatusUNREQ) (rows s))).

Definition getLatestEndBlock (s : t) : result Z :=
  match filter live (rows s) with
  | [] => Err NotFoundError
  | r :: rs => Ok (fold_left (fun m x => Z.max m (ent.EndBlock x)) rs (ent.EndBlock r))
  end.

Definition completeSpanAt (cur : Z) (r : ent.ProofRequest) : bool :=
  Type_eqb (ent.Type_ r) TypeSPAN && hasStatus StatusCOMPLETE r
  && (ent.StartBlock r =? cur) && (cur <=? ent.EndBlock r).

(** The proofs of the COMPLETE SPANs that tile [[cur, end_]], walked from
    the left; every step uses a row that starts further right, so the
    number of rows is fuel enough. *)
Fixpoint subproofsFrom (fuel : nat) (rs : list ent.ProofRequest) (cur end_ : Z)
  : result (list bytes) :=
  match fuel with
  | O => Err (ErrorNew "no partition")
  | Datatypes.S fuel' =>
      match find (completeSpanAt cur) rs with
      | None => Err (ErrorNew "no partition")
      | Some r =>
          if ent.EndBlock r =? end_ then Ok [ent.Proof_ r]
          else if ent.EndBlock r <? end_ then
            match subproofsFrom fuel' rs (ent.EndBlock r + 1) end_ with
            | Ok ps => Ok (ent.Proof_ r :: ps)
            | Err e => Err e
            end
          else Err (ErrorNew "no partition")
      end
  end.

Definition getSubproofs (start end_ : Z) (s : t) : result (list bytes) :=
  subproofsFrom (List.length (rows s)) (rows s) start end_.

Definition newEntry (c : Checks) (ty : string) (s e : Z) (st : t) : goerr * t :=
  match parse_Type ty with
  | None => (Some (ErrorNew "invalid proof type"), st)
  | Some ty' =>
      if check_duplicate c && existsb (conflicts ty' s e) (rows st)
      then (Some (ErrorNew "Duplicate"), st)
      else (None, mk (rows st ++ [newRow (nextID st) ty' s e]) (nextID st + 1))
  end.

Definition updateProofStatus (c : Checks) (clock id : Z) (status : string) (st : t)
  : goerr * t :=
  match parse_Status status with
  | None => (Some (ErrorNew "invalid status"), st)
  | Some new =>
      match findRow id (rows st) with
      | None => (Some NotFoundError, st)
      | Some r =>
          if check_transition c && negb (allowed (ent.Status r) new)
          then (Some (ErrorNew "IllegalTransition"), st)
          else (None, mk (updateRows id (setStatus clock new) (rows st)) (nextID st))
      end
  end.

Definition addProof (c : Checks) (id : Z) (proof : bytes) (st : t) : goerr * t :=
  match findRow id (rows st) with
  | None => (Some NotFoundError, st)
  | Some r =>
      if check_transition c && negb (allowed (ent.Status r) StatusCOMPLETE)
      then (Some (ErrorNew "IllegalTransition"), st)
      else (None, mk (updateRows id (setProof proof) (rows st)) (nextID st))
  end.

Definition setProverRequestIDOf (c : Checks) (id : Z) (rid : string) (st : t)
  : goerr * t :=
  match findRow id (rows st) with
  | None => (Some NotFoundError, st)
  | Some r =>
      if check_transition c && negb (hasStatus StatusREQ r)
      then (Some (ErrorNew "IllegalTransition"), st)
      else (None, mk (updateRows id (setProverRequestID rid) (rows st)) (nextID st))
  end.

Definition matchesAgg (s e : Z) (r : ent.ProofRequest) : bool :=
  Type_eqb (ent.Type_ r) TypeAGG
  && (ent.StartBlock r =? s) && (ent.EndBlock r =? e).

Definition addL1BlockInfo (s e n : Z) (h : string) (st : t) : goerr * t :=
  if existsb (matchesAgg s e) (rows st)
  then (None, mk (map (fun r => if matchesAgg s e r then setL1 n h r else r) (rows st))
                 (nextID st))
  else (Some NotFoundError, st).
End Store.

(** Modelled from the spec: the proof store (package [db] of the proposer,
    reached as [l.db]) is not among the sources.  Section 4.1 of the spec
    gives its operations: [NewEntry] creates an [UNREQ] entry and rejects
    one that would overlap a non-failed entry of the same type;
    [GetAllUnrequested] answers in [(start_block, id)] order;
    [GetAllPending] answers the [REQ] entries; [UpdateStatus] enforces the
    transition rule and, on the step to [REQ], records the request time;
    [SetProverRequestID] is allowed on an entry in [REQ]; [AddProof] stores
    the bytes and sets [COMPLETE]; [GetLatestEndBlock] is the largest end
    block of the non-failed entries or [NotFound]; [GetSubproofs] returns
    the proofs of the [COMPLETE] SPANs that partition the range, in start
    order; [AddL1BlockInfo] attaches the checkpoint to the matching AGG
    entry.  The two refusals are switched by [Store.Checks]. *)
Definition MemDB (c : Store.Checks) : ProofDB Store.t := {|
  GetAllPendingProofs := Store.getAllPendingProofs;
  GetAllUnrequestedProofs := Store.getAllUnrequestedProofs;
  GetLatestEndBlock := Store.getLatestEndBlock;
  GetSubproofs := Store.getSubproofs;
  AddProof := Store.addProof c;
  UpdateProofStatus := Store.updateProofStatus c;
  NewEntry := Store.newEntry c;
  SetProverRequestID := Store.setProverRequestIDOf c;
  AddL1BlockInfo := Store.addL1BlockInfo
|}.

(** The store as the spec describes it: both refusals in force. *)
Definition SpecDB : ProofDB Store.t :=
  MemDB {| Store.check_transition := true; Store.check_duplicate := true |}.

(** A store that carries out every write it is asked for: the rows and
    operations are the same, and neither refusal is in force. *)
Definition PlainDB : ProofDB Store.t :=
  MemDB {| Store.check_transition := false; Store.check_duplicate := false |}.

(** A store whose [AddL1BlockInfo] write fails and changes nothing; the
    other operations are those of [base]. *)
Definition FailingL1Info {S} (base : ProofDB S) : ProofDB S := {|
  GetAllPendingProofs := @GetAllPendingProofs S base;
  GetAllUnrequestedProofs := @GetAllUnrequestedProofs S base;
  GetLatestEndBlock := @GetLatestEndBlock S base;
  GetSubproofs := @GetSubproofs S base;
  AddProof := @AddProof S base;
  UpdateProofStatus := @UpdateProofStatus S base;
  NewEntry := @NewEntry S base;
  SetProverRequestID := @SetProverRequestID S base;
  AddL1BlockInfo := fun _ _ _ _ st => (Some (ErrorNew "AddL1BlockInfo failed"), st)
|}.

(** ** Concrete worlds

    A prover double and stores for the scenarios of section 8 of the spec.
    Bodies are short tokens; the decoders of the double map them to the
    decoded structs, and reject anything else the way [json.Unmarshal]
    rejects a body that is not JSON: with an error and the target left as
    it was. *)

Module Fixture.
Import proofrequest.

Definition cfg : Config := {|
  KonaServerUrl := "http://kona";
  MaxProofTime := 3600;
  MaxBlockRangePerSpanProof := 100;
  MaxSpanBatchDeviation := 10
|}.

Definition prover (_ : list Event) (req : Request) : result Response :=
  if String.eqb (Method req) "POST" then Ok {| ReadAll := ("id:kona-1", None) |}
  else if String.eqb (URL req) "http://kona/status/done"
  then Ok {| ReadAll := ("fulfilled", None) |}
  else Ok {| ReadAll := ("pending", None) |}.

(** A prover whose every answer is an HTML error page. *)
Definition garbledProver (_ : list Event) (_ : Request) : result Response :=
  Ok {| ReadAll := ("<html>502 Bad Gateway</html>", None) |}.

Definition decodeResponse (body : string) (v : ProofResponse)
  : ProofResponse * goerr :=
  if String.eqb body "id:kona-1" then ({| resp_ProofID := "kona-1" |}, None)
  else (v, Some (ErrorNew "invalid character '<' looking for beginning of value")).

Definition proofBytes : bytes := [Byte.x01; Byte.x02; Byte.x03].

Definition decodeStatus (body : string) (v : ProofStatus) : ProofStatus * goerr :=
  if String.eqb body "fulfilled"
  then ({| status_Status := "PROOF_FULFILLED"; status_Proof := proofBytes |}, None)
  else if String.eqb body "pending"
  then ({| status_Status := "PROOF_PENDING"; status_Proof := [] |}, None)
  else (v, Some (ErrorNew "invalid character '<' looking for beginning of value")).

Definition spanBatches (nextBlock _ : Z) : Z * Z * goerr :=
  if nextBlock =? 1001 then (1001, 1350, None)
  else (0, 0, Some NoSpanBatchFoundError).

Definition envWith (c : Config)
           (p : list Event -> Request -> result Response) : Env := {|
  Cfg := c;
  url_ok := fun _ => true;
  client_Do := p;
  json_Unmarshal_ProofResponse := decodeResponse;
  json_Unmarshal_ProofStatus := decodeStatus;
  checkpointBlockHash := fun _ => Ok (77, "0xabc");
  LatestBlockNumber := Ok 1000;
  FetchBatchesFromChain := fun _ => None;
  GetSpanBatchRange := spanBatches;
  float_oor := 0
|}.

Definition env : Env := envWith cfg prover.
Definition garbledEnv : Env := envWith cfg garbledProver.

Definition row (id : Z) (ty : Type_) (s e : Z) (st : Status) (rid : string)
           (proof : bytes) : ent.ProofRequest :=
  ent.mkProofRequest id ty s e st rid 0 proof 0 "".

Definition world (rs : list ent.ProofRequest) (next clock : Z) : World Store.t :=
  mkWorld (Store.mk rs next) clock [].

(** Scenario 3: SPAN [[1001,1100]] in REQ, requested at 0, polled at
    10000 with [MaxProofTime = 3600]; the prover says pending. *)
Definition slowSpan : ent.ProofRequest :=
  row 1 TypeSPAN 1001 1100 StatusREQ "slow" [].

Definition spanTimedOut : World Store.t := world [slowSpan] 2 10000.

(** Scenario 4: three COMPLETE SPANs over [[1001,1300]] and the AGG over
    them in REQ, timed out. *)
Definition completeSpans : list ent.ProofRequest :=
  [row 1 TypeSPAN 1001 1100 StatusCOMPLETE "a" proofBytes;
   row 2 TypeSPAN 1101 1200 StatusCOMPLETE "b" proofBytes;
   row 3 TypeSPAN 1201 1300 StatusCOMPLETE "c" proofBytes].

Definition aggTimedOut : World Store.t :=
  world (completeSpans ++ [row 4 TypeAGG 1001 1300 StatusREQ "slow" []]) 5 10000.

(** The same AGG after the COMPLETE SPANs were archived. *)
Definition aggTimedOutAlone : World Store.t :=
  world [row 4 TypeAGG 1001 1300 StatusREQ "slow" []] 5 10000.

(** A SPAN fulfilled by the prover and polled after its deadline. *)
Definition spanFulfilledLate : World Store.t :=
  world [row 1 TypeSPAN 1001 1100 StatusREQ "done" []] 2 10000.

(** A SPAN of one block, timed out. *)
Definition unitSpanTimedOut : World Store.t :=
  world [row 1 TypeSPAN 5 5 StatusREQ "slow" []] 2 10000.

(** Two SPANs waiting to be requested. *)
Definition twoQueued : World Store.t :=
  world [row 1 TypeSPAN 1001 1100 StatusUNREQ "" [];
         row 2 TypeSPAN 1101 1200 StatusUNREQ "" []] 3 500.

(** An AGG waiting to be requested; the store holds COMPLETE SPANs from
    block 1000 on, the block [RequestKonaProof] asks the subproofs from. *)
Definition queuedAgg : ent.ProofRequest :=
  row 3 TypeAGG 1001 1300 StatusUNREQ "" [].

Definition aggQueued : World Store.t :=
  world [row 1 TypeSPAN 1000 1100 StatusCOMPLETE "a" proofBytes;
         row 2 TypeSPAN 1101 1300 StatusCOMPLETE "b" proofBytes;
         queuedAgg] 4 500.

(** One SPAN waiting to be requested, and one that starts at genesis. *)
Definition queuedSpan : ent.ProofRequest :=
  row 1 TypeSPAN 1001 1100 StatusUNREQ "" [].

Definition oneQueued : World Store.t := world [queuedSpan] 2 500.

Definition genesisQueued : World Store.t :=
  world [row 1 TypeSPAN 0 10 StatusUNREQ "" []] 2 500.

(** A prover whose response body breaks off while it is read. *)
Definition truncatedProver (_ : list Event) (_ : Request) : result Response :=
  Ok {| ReadAll := ("", Some (ErrorNew "unexpected EOF")) |}.

Definition truncatedEnv : Env := envWith cfg truncatedProver.

(** A configuration that sets the chunk cap to the largest [uint64]. *)
Definition hugeCap : Config := {|
  KonaServerUrl := "http://kona";
  MaxProofTime := 3600;
  MaxBlockRangePerSpanProof := two64 - 1;
  MaxSpanBatchDeviation := 10
|}.

Definition hugeCapEnv : Env := envWith hugeCap prover.

Definition emptyStore : World Store.t := world [] 1 500.
End Fixture.

(** ** Observations on a world *)

(** The JSON bodies sent to the prover, in order. *)
Definition posted (tr : list Event) : list Json :=
  flat_map (fun ev =>
              match ev with
              | EvHTTP req => match ReqBody req with Some j => [j] | None => [] end
              | EvDB _ _ => []
              end) tr.

(** The store calls made, each with its outcome, in order. *)
Definition dbCalls (tr : list Event) : list (DBCall * goerr) :=
  flat_map (fun ev =>
              match ev with
              | EvDB c r => [(c, r)]
              | EvHTTP _ => []
              end) tr.

(** [requestFor p j]: [j] is a body [RequestKonaProof p] sends, the range
    from the block before the entry's start to its end for a SPAN, a list
    of subproofs for an AGG. *)
Definition requestFor (p : ent.ProofRequest) (j : Json) : Prop :=
  match ent.Type_ p with
  | proofrequest.TypeSPAN =>
      j = json_Marshal_SpanProofRequest
            {| span_Start := u64_sub (ent.StartBlock p) 1;
               span_End := ent.EndBlock p |}
  | proofrequest.TypeAGG =>
      exists subproofs,
        j = json_Marshal_AggProofRequest {| agg_Subproofs := subproofs |}
  end.

(** [Submissions ps js]: the bodies [js] are requests for entries of [ps],
    in the order of [ps], at most one for each place in [ps]. *)
Inductive Submissions : list ent.ProofRequest -> list Json -> Prop :=
| Submissions_nil : Submissions [] []
| Submissions_skip p ps js :
    Submissions ps js -> Submissions (p :: ps) js
| Submissions_send p ps j js :
    requestFor p j -> Submissions ps js -> Submissions (p :: ps) (j :: js).

(** A row as the scenarios of the spec write it. *)
Definition summary (r : ent.ProofRequest)
  : Z * proofrequest.Type_ * Z * Z * proofrequest.Status :=
  (ent.ID r, ent.Type_ r, ent.StartBlock r, ent.EndBlock r, ent.Status r).

Definition table (w : World Store.t)
  : list (Z * proofrequest.Type_ * Z * Z * proofrequest.Status) :=
  map summary (Store.rows (db w)).

(** The rows [NewEntry] makes for a list of SPAN ranges, numbered from [n]. *)
Fixpoint spanRows (n : Z) (rs : list (Z * Z)) : list ent.ProofRequest :=
  match rs with
  | [] => []
  | (a, b) :: rs' => Store.newRow n proofrequest.TypeSPAN a b :: spanRows (n + 1) rs'
  end.

(** [Tiling cap a e rs]: the ranges [rs] are non-empty, of at most [cap]
    blocks each, each starts right after the one before, the first starts
    at [a] and the last ends at [e]. *)
Inductive Tiling (cap : Z) : Z -> Z -> list (Z * Z) -> Prop :=
| Tiling_last a e :
    a <= e -> e - a + 1 <= cap -> Tiling cap a e [(a, e)]
| Tiling_step a b e rs :
    a <= b -> b - a + 1 <= cap -> b < e ->
    Tiling cap (b + 1) e rs -> Tiling cap a e ((a, b) :: rs).

(** ** The chain side of the derivation

    [FetchBatchesFromChain], [getL1OriginAndFinalized] and
    [GenerateSpanBatchRange] of [prove.go], and the [reassemble] action of
    the batch decoder's [main.go].  Their collaborators (rollup node, L1
    client, beacon client, chain registry, [fetch.Batches],
    [reassemble.GetSpanBatchRange]) are fields of [Chain].  [log.Fatal]
    ends the process: a run is [Returned] or [Fatal]. *)

(** The fields of [rollup.Config] the two files read. *)
Record RollupConfig : Type := {
  Genesis_L2Time : Z;
  BlockTime : Z;
  BatchInboxAddress : Z;
  Genesis_SystemConfig_BatcherAddr : Z
}.

(** [fetch.Config] *)
Record fetch_Config : Type := {
  fetch_Start : Z;
  fetch_End : Z;
  fetch_ChainID : Z;
  fetch_BatchSenders : list Z;
  fetch_BatchInbox : Z;
  fetch_OutDirectory : string;
  fetch_ConcurrentRequests : Z
}.

(** [reassemble.Config] *)
Record reassemble_Config : Type := {
  reassemble_BatchInbox : Z;
  reassemble_InDirectory : string;
  reassemble_OutDirectory : string;
  reassemble_L2ChainID : Z;
  reassemble_L2GenesisTime : Z;
  reassemble_L2BlockTime : Z
}.

Record Chain : Type := {
  BeaconRpc : string;
  TxCacheOutDir : string;
  BatchDecoderConcurrentReqs : Z;
  L2ChainID : Z;
  RollupClient : goerr;
  OutputAtBlock : Z -> result Z;
  SyncStatus : result Z;
  l1Client_ChainID : result Z;
  beacon_GetVersion : result string;
  LoadOPStackRollupConfig : Z -> result RollupConfig;
  fetch_Batches : fetch_Config -> Z * Z;
  reassemble_GetSpanBatchRange :
    reassemble_Config -> RollupConfig -> Z -> Z -> Z * Z * goerr
}.

Inductive Exit (A : Type) : Type :=
| Returned (a : A)
| Fatal (e : error).
Arguments Returned {A} a.
Arguments Fatal {A} e.

(** [getL1OriginAndFinalized]: the L1 origin of [nextBlock] and the
    finalized L1 head, or the error of the first call that fails. *)
Definition getL1OriginAndFinalized (ch : Chain) (nextBlock : Z) : result (Z * Z) :=
  match RollupClient ch with
  | Some e => Err e
  | None =>
      match OutputAtBlock ch nextBlock with
      | Err e => Err e
      | Ok l1Origin =>
          match SyncStatus ch with
          | Err e => Err e
          | Ok finalizedL1 => Ok (l1Origin, finalizedL1)
          end
      end
  end.

(** [FetchBatchesFromChain], with the list of the [fetch.Batches] calls it
    made.  In the branch for an empty beacon address the [err] returned is
    the one of the [ChainID] call above it, which is [nil] there. *)
Definition fetchBatchesFromChain (ch : Chain) (nextBlock : Z)
  : Exit goerr * list fetch_Config :=
  match getL1OriginAndFinalized ch nextBlock with
  | Err e => (Returned (Some e), [])
  | Ok (l1Origin, finalizedL1) =>
      match l1Client_ChainID ch with
      | Err e => (Fatal e, [])
      | Ok chainID =>
          if String.eqb (BeaconRpc ch) "" then (Returned None, [])
          else
            match beacon_GetVersion ch with
            | Err e => (Fatal (Errorf "failed to check L1 Beacon API version" e), [])
            | Ok _ =>
                match LoadOPStackRollupConfig ch (L2ChainID ch) with
                | Err e => (Fatal e, [])
                | Ok rollupCfg =>
                    let fetchConfig := {|
                      fetch_Start := l1Origin;
                      fetch_End := finalizedL1;
                      fetch_ChainID := chainID;
                      fetch_BatchSenders := [Genesis_SystemConfig_BatcherAddr rollupCfg];
                      fetch_BatchInbox := BatchInboxAddress rollupCfg;
                      fetch_OutDirectory := TxCacheOutDir ch;
                      fetch_ConcurrentRequests := BatchDecoderConcurrentReqs ch
                    |} in
                    let '(totalValid, _) := fetch_Batches ch fetchConfig in
                    (Returned None, [fetchConfig])
                end
            end
      end
  end.

(** The [reassemble.Config] that [GenerateSpanBatchRange] builds. *)
Definition proposerReassembleConfig (ch : Chain) (rollupCfg : RollupConfig)
  : reassemble_Config := {|
  reassemble_BatchInbox := BatchInboxAddress rollupCfg;
  reassemble_InDirectory := TxCacheOutDir ch;
  reassemble_OutDirectory := "";
  reassemble_L2ChainID := u64 (L2ChainID ch);
  reassemble_L2GenesisTime := Genesis_L2Time rollupCfg;
  reassemble_L2BlockTime := BlockTime rollupCfg
|}.

Definition GenerateSpanBatchRange (ch : Chain) (nextBlock maxSpanBatchDeviation : Z)
  : Exit (Z * Z * goerr) :=
  match LoadOPStackRollupConfig ch (L2ChainID ch) with
  | Err e => Fatal e
  | Ok rollupCfg =>
      Returned (reassemble_GetSpanBatchRange ch (proposerReassembleConfig ch rollupCfg)
                                             rollupCfg nextBlock maxSpanBatchDeviation)
  end.

(** The flags of the batch decoder's [reassemble] command, as [cliCtx]
    returns them; [flag_inbox] is the address [common.HexToAddress] reads
    from the flag's text. *)
Record ReassembleFlags : Type := {
  flag_in : string;
  flag_out : string;
  flag_l2_chain_id : Z;
  flag_l2_genesis_timestamp : Z;
  flag_l2_block_time : Z;
  flag_inbox : Z
}.

(** The [Action] of the [reassemble] command up to its call of
    [reassemble.Channels]: the configuration it passes.  The three
    assignments under [if err == nil] are written as the source has them,
    each under its own test. *)
Definition reassembleAction (load : Z -> result RollupConfig) (fl : ReassembleFlags)
  : reassemble_Config :=
  let L2GenesisTime := flag_l2_genesis_timestamp fl in
  let L2BlockTime := flag_l2_block_time fl in
  let BatchInbox := flag_inbox fl in
  let L2ChainID := u64 (flag_l2_chain_id fl) in
  let '(L2GenesisTime, L2BlockTime, BatchInbox) :=
    match load (u64 L2ChainID) with
    | Ok rollupCfg =>
        (if negb (L2GenesisTime =? Genesis_L2Time rollupCfg)
         then Genesis_L2Time rollupCfg else L2GenesisTime,
         if negb (L2BlockTime =? BlockTime rollupCfg)
         then BlockTime rollupCfg else L2BlockTime,
         if negb (BatchInbox =? BatchInboxAddress rollupCfg)
         then BatchInboxAddress rollupCfg else BatchInbox)
    | Err _ => (L2GenesisTime, L2BlockTime, BatchInbox)
    end in
  {| reassemble_BatchInbox := BatchInbox;
     reassemble_InDirectory := flag_in fl;
     reassemble_OutDirectory := flag_out fl;
     reassemble_L2ChainID := L2ChainID;
     reassemble_L2GenesisTime := L2GenesisTime;
     reassemble_L2BlockTime := L2BlockTime |}.

(** ** Environments that differ in one collaborator *)

Definition withSpanBatchRange (env : Env) (g : Z -> Z -> Z * Z * goerr) : Env := {|
  Cfg := Cfg env;
  url_ok := url_ok env;
  client_Do := client_Do env;
  json_Unmarshal_ProofResponse := json_Unmarshal_ProofResponse env;
  json_Unmarshal_ProofStatus := json_Unmarshal_ProofStatus env;
  checkpointBlockHash := checkpointBlockHash env;
  LatestBlockNumber := LatestBlockNumber env;
  FetchBatchesFromChain := FetchBatchesFromChain env;
  GetSpanBatchRange := g;
  float_oor := float_oor env
|}.

Definition withLatestBlockNumber (env : Env) (r : result Z) : Env := {|
  Cfg := Cfg env;
  url_ok := url_ok env;
  client_Do := client_Do env;
  json_Unmarshal_ProofResponse := json_Unmarshal_ProofResponse env;
  json_Unmarshal_ProofStatus := json_Unmarshal_ProofStatus env;
  checkpointBlockHash := checkpointBlockHash env;
  LatestBlockNumber := r;
  FetchBatchesFromChain := FetchBatchesFromChain env;
  GetSpanBatchRange := GetSpanBatchRange env;
  float_oor := float_oor env
|}.

(** An answer of [GetSpanBatchRange] after which the derivation loop goes
    on to insert entries: no error, or the deviation error. *)
Definition proceeds (r : goerr) : Prop :=
  r = None \/ r = Some MaxDeviationExceededError.

(** Two answers with the same end that either carry the same error or both
    let the loop go on; the starts may differ. *)
Definition sameBatch (a b : Z * Z * goerr) : Prop :=
  snd (fst a) = snd (fst b)
  /\ (snd a = snd b \/ (proceeds (snd a) /\ proceeds (snd b))).

(** ** More concrete worlds *)

Module Scenario.
Import proofrequest.

(** The SPAN of scenario 3, polled inside its deadline. *)
Definition spanWaiting : World Store.t := Fixture.world [Fixture.slowSpan] 2 100.

(** A SPAN the prover has fulfilled, polled inside its deadline. *)
Definition doneSpan : ent.ProofRequest :=
  Fixture.row 1 TypeSPAN 1001 1100 StatusREQ "done" [].

Definition spanDoneInTime : World Store.t := Fixture.world [doneSpan] 2 100.

(** A configuration whose proof deadline is the largest [int64]. *)
Definition noDeadline : Config := {|
  KonaServerUrl := "http://kona";
  MaxProofTime := 2 ^ 63 - 1;
  MaxBlockRangePerSpanProof := 100;
  MaxSpanBatchDeviation := 10
|}.

Definition noDeadlineEnv : Env := Fixture.envWith noDeadline Fixture.prover.

(** A SPAN requested at second 1700000000. *)
Definition recentSpan : ent.ProofRequest :=
  ent.mkProofRequest 1 TypeSPAN 1001 1100 StatusREQ "slow" 1700000000 [] 0 "".

Definition recentlyRequested : World Store.t :=
  Fixture.world [recentSpan] 2 1700000005.

(** A prover that cannot be reached. *)
Definition downProver (_ : list Event) (_ : Request) : result Response :=
  Err (ErrorNew "connection refused").

Definition downEnv : Env := Fixture.envWith Fixture.cfg downProver.

(** An environment whose L1 checkpoint call fails. *)
Definition noCheckpointEnv : Env := {|
  Cfg := Fixture.cfg;
  url_ok := fun _ => true;
  client_Do := Fixture.prover;
  json_Unmarshal_ProofResponse := Fixture.decodeResponse;
  json_Unmarshal_ProofStatus := Fixture.decodeStatus;
  checkpointBlockHash := fun _ => Err (ErrorNew "checkpoint failed");
  LatestBlockNumber := Ok 1000;
  FetchBatchesFromChain := fun _ => None;
  GetSpanBatchRange := Fixture.spanBatches;
  float_oor := 0
|}.

(** A queued SPAN followed by a queued AGG. *)
Definition laterAgg : ent.ProofRequest :=
  Fixture.row 2 TypeAGG 1101 1300 StatusUNREQ "" [].

Definition spanThenAgg : World Store.t :=
  Fixture.world [Fixture.queuedSpan; laterAgg] 3 500.

(** Three pending SPANs polled at second 10000.  The first was requested
    at 9000 and is inside its deadline; the second is the SPAN of scenario
    3, requested at 0; the third was requested at 9000 and the prover has
    fulfilled it. *)
Definition earlierSpan : ent.ProofRequest :=
  ent.mkProofRequest 1 TypeSPAN 901 1000 StatusREQ "slow" 9000 [] 0 "".

Definition middleSpan : ent.ProofRequest :=
  ent.mkProofRequest 2 TypeSPAN 1001 1100 StatusREQ "slow" 0 [] 0 "".

Definition laterSpan : ent.ProofRequest :=
  ent.mkProofRequest 3 TypeSPAN 1101 1200 StatusREQ "done" 9000 [] 0 "".

Definition threePending : World Store.t :=
  Fixture.world [earlierSpan; middleSpan; laterSpan] 4 10000.

(** Scenario 4 with a timed-out SPAN [[1301,1400]] pending behind the
    AGG. *)
Definition spanBehindAgg : World Store.t :=
  Fixture.world
    (Fixture.completeSpans
       ++ [Fixture.row 4 TypeAGG 1001 1300 StatusREQ "slow" [];
           Fixture.row 5 TypeSPAN 1301 1400 StatusREQ "slow" []]) 6 10000.

(** Two SPANs of one pass: entry 1 still waits for its goroutine, entry 2
    has been requested already. *)
Definition secondRequested : World Store.t :=
  Fixture.world [Fixture.queuedSpan;
                 Fixture.row 2 TypeSPAN 1101 1200 StatusREQ "" []] 3 500.

(** The span batch of scenario 1 reported with another start and with the
    deviation error. *)
Definition shiftedBatches (nextBlock _ : Z) : Z * Z * goerr :=
  if nextBlock =? 1001 then (900, 1350, Some MaxDeviationExceededError)
  else (7, 0, Some NoSpanBatchFoundError).

Definition registry (id : Z) : result RollupConfig :=
  if id =? 10
  then Ok {| Genesis_L2Time := 1686068903; BlockTime := 2;
             BatchInboxAddress := 255; Genesis_SystemConfig_BatcherAddr := 4660 |}
  else Err (ErrorNew "unknown chain").

Definition chainWith (beacon : string) : Chain := {|
  BeaconRpc := beacon;
  TxCacheOutDir := "/tmp/tx_cache";
  BatchDecoderConcurrentReqs := 10;
  L2ChainID := 10;
  RollupClient := None;
  OutputAtBlock := fun nextBlock => Ok (nextBlock / 6);
  SyncStatus := Ok 900;
  l1Client_ChainID := Ok 1;
  beacon_GetVersion := Ok "v1";
  LoadOPStackRollupConfig := registry;
  fetch_Batches := fun _ => (0, 0);
  reassemble_GetSpanBatchRange := fun _ _ nextBlock _ => (nextBlock, nextBlock + 9, None)
|}.

(** Flags of the [reassemble] command that disagree with the registry. *)
Definition staleFlags : ReassembleFlags := {|
  flag_in := "/tmp/in";
  flag_out := "/tmp/out";
  flag_l2_chain_id := 10;
  flag_l2_genesis_timestamp := 5;
  flag_l2_block_time := 1;
  flag_inbox := 0
|}.
End Scenario.

(** ** Arithmetic of the source *)

Lemma u64_small z : 0 <= z < two64 -> u64 z = z.
Proof. intros H. unfold u64. apply Z.mod_small. exact H. Qed.

Lemma u64_sub_1 s : 1 <= s < two64 -> u64_sub s 1 = s - 1.
Proof. intros H. unfold u64_sub. apply u64_small. lia. Qed.

(** The midpoint of the source, [tmpStart + (EndBlock - tmpStart) / 2],
    without wrap when [s <= e] are [uint64] values. *)
Lemma midpoint_exact s e :
  0 <= s -> s <= e -> e < two64 ->
  u64_add s (u64_div (u64_sub e s) 2) = s + (e - s) / 2.
Proof.
  intros Hs Hse He.
  unfold u64_add, u64_div, u64_sub.
  rewrite (u64_small (e - s)) by lia.
  assert (0 <= (e - s) / 2 <= e - s).
  { split; [apply Z.div_pos; lia | apply Z.div_le_upper_bound; lia]. }
  apply u64_small. lia.
Qed.

Lemma midpoint_bounds s e :
  s < e -> s <= s + (e - s) / 2 /\ s + (e - s) / 2 + 1 <= e.
Proof.
  intros H.
  assert (0 <= (e - s) / 2) by (apply Z.div_pos; lia).
  assert ((e - s) / 2 < e - s) by (apply Z.div_lt_upper_bound; lia).
  lia.
Qed.

Lemma float64_exact x : 0 <= x < two53 -> float64_of_uint64 x = x.
Proof.
  intros [H0 H1]. unfold float64_of_uint64.
  assert (Hk : Z.log2 x < 53).
  { destruct (Z.eq_dec x 0) as [-> | Hx]; [reflexivity |].
    apply Z.log2_lt_pow2; [lia | exact H1]. }
  apply Z.ltb_lt in Hk. cbv zeta. rewrite Hk. reflexivity.
Qed.

Lemma float64_large x : two53 <= x -> two53 <= float64_of_uint64 x.
Proof.
  intros H. unfold float64_of_uint64. cbv zeta.
  assert (Hx : 0 < x) by (unfold two53 in H; lia).
  assert (Hk : 53 <= Z.log2 x) by (apply Z.log2_le_pow2; [lia | exact H]).
  destruct (Z.ltb_spec (Z.log2 x) 53) as [Hlt | _]; [lia |].
  set (k := Z.log2 x) in *.
  set (ulp := 2 ^ (k - 52)).
  assert (Hulp : 0 < ulp) by (apply Z.pow_pos_nonneg; lia).
  assert (Hpow : 2 ^ k = 2 ^ 52 * ulp).
  { unfold ulp. rewrite <- Z.pow_add_r by lia. f_equal. lia. }
  assert (Hlow : 2 ^ k <= x) by (apply Z.log2_spec; exact Hx).
  assert (Hq : 2 ^ 52 <= x / ulp).
  { apply Z.div_le_lower_bound; [exact Hulp | lia]. }
  assert (Hlo : two53 <= x / ulp * ulp).
  { assert (2 ^ 53 <= 2 ^ k) by (apply Z.pow_le_mono_r; lia).
    unfold two53. nia. }
  repeat match goal with |- context [if ?b then _ else _] => destruct b end; lia.
Qed.

(** The end of a chunk, [uint64(math.Min(float64(maxEnd), float64(end)))],
    is the smaller of the two when [end] is below [2^53]. *)
Lemma chunk_end oor maxEnd end_ :
  0 <= maxEnd -> 0 <= end_ < two53 ->
  uint64_of_float64 oor (math_Min (float64_of_uint64 maxEnd) (float64_of_uint64 end_))
  = Z.min maxEnd end_.
Proof.
  intros Hm He. unfold uint64_of_float64, math_Min.
  rewrite (float64_exact end_) by exact He.
  assert (Hmin : Z.min (float64_of_uint64 maxEnd) end_ = Z.min maxEnd end_).
  { destruct (Z.lt_ge_cases maxEnd two53) as [Hlt | Hge].
    - rewrite float64_exact by lia. reflexivity.
    - pose proof (float64_large maxEnd Hge). lia. }
  rewrite Hmin.
  assert (Z.min maxEnd end_ < two64) by (unfold two53, two64 in *; lia).
  destruct (Z.ltb_spec (Z.min maxEnd end_) two64); [reflexivity | lia].
Qed.

Example float64_rounds_half_to_even :
  float64_of_uint64 (two53 + 1) = two53
  /\ float64_of_uint64 (two53 + 3) = two53 + 4
  /\ float64_of_uint64 (two64 - 1) = two64.
Proof. repeat split. Qed.

(** ** The store's refusals *)

Section StoreFacts.
Import proofrequest.

Lemma parse_FAILED : Store.parse_Status "FAILED" = Some StatusFAILED.
Proof. reflexivity. Qed.

Lemma parse_SPAN : Store.parse_Type "SPAN" = Some TypeSPAN.
Proof. reflexivity. Qed.

(** An entry that conflicts with no part of a range conflicts with no
    part of a smaller one. *)
Lemma conflicts_shrink ty s e s' e' r :
  Store.conflicts ty s e r = false ->
  s <= s' -> e' <= e ->
  Store.conflicts ty s' e' r = false.
Proof.
  unfold Store.conflicts, Store.overlaps. intros H Hs He.
  destruct (Type_eqb (ent.Type_ r) ty); [| reflexivity].
  destruct (Store.live r); [| reflexivity].
  simpl in *. apply Z.leb_gt in H. apply Z.leb_gt. lia.
Qed.

(** A fresh row over [[a, b]] leaves everything right of [b] free. *)
Lemma conflicts_newRow_right ty n a b e :
  Store.conflicts ty (b + 1) e (Store.newRow n ty a b) = false.
Proof.
  unfold Store.conflicts, Store.overlaps, Store.newRow. simpl.
  rewrite !andb_false_iff. right. apply Z.leb_gt. lia.
Qed.

Lemma conflicts_failed ty s e clock r :
  Store.conflicts ty s e (Store.setStatus clock StatusFAILED r) = false.
Proof.
  unfold Store.conflicts, Store.live, Store.setStatus. simpl.
  rewrite andb_false_r. reflexivity.
Qed.

Lemma existsb_false_forall {A} (f : A -> bool) (l : list A) :
  (forall x, In x l -> f x = false) -> existsb f l = false.
Proof.
  induction l as [| a l IH]; intros H; simpl; [reflexivity |].
  rewrite (H a) by (left; reflexivity).
  apply IH. intros x Hx. apply H. right. exact Hx.
Qed.

(** After the entry [id] is set to FAILED, a range that only its rows
    stood in the way of is free. *)
Lemma free_after_failed id clock s e rs :
  (forall r, In r rs -> ent.ID r <> id -> Store.conflicts TypeSPAN s e r = false) ->
  forall r, In r (Store.updateRows id (Store.setStatus clock StatusFAILED) rs) ->
            Store.conflicts TypeSPAN s e r = false.
Proof.
  intros H r Hr. unfold Store.updateRows in Hr.
  apply in_map_iff in Hr. destruct Hr as [r0 [Heq Hin]].
  destruct (Z.eqb_spec (ent.ID r0) id) as [Hid | Hid]; subst r.
  - apply conflicts_failed.
  - apply H; assumption.
Qed.
End StoreFacts.

(** ** The prover client leaves the store and the clock alone *)

Lemma GetProofStatus_frame {S} (env : Env) (proofId : string) (w : World S) :
  db (snd (GetProofStatus env proofId w)) = db w
  /\ now (snd (GetProofStatus env proofId w)) = now w.
Proof.
  unfold GetProofStatus.
  destruct (http_NewRequest env "GET" _ None) as [req | e]; [| split; reflexivity].
  unfold bind, wrap, http_Do.
  destruct (client_Do env (trace w) req) as [resp | e]; [| split; reflexivity].
  destruct (ReadAll resp) as [body rerr].
  destruct (json_Unmarshal_ProofStatus env body _) as [response derr].
  split; reflexivity.
Qed.

(** [GetProofStatus] returns an error only for a request that could not be
    built or sent: once a response arrived, whatever its body, the call
    succeeds. *)
Lemma GetProofStatus_ok_after_response {S} (env : Env) (proofId : string)
      (w : World S) (req : Request) (resp : Response) :
  http_NewRequest env "GET" (KonaServerUrl (Cfg env) ++ "/status/" ++ proofId)%string None
  = Ok req ->
  client_Do env (trace w) req = Ok resp ->
  exists status proof, fst (GetProofStatus env proofId w) = Ok (status, proof).
Proof.
  intros Hreq Hdo. unfold GetProofStatus. rewrite Hreq.
  unfold bind, wrap, http_Do. rewrite Hdo.
  destruct (ReadAll resp) as [body rerr].
  destruct (json_Unmarshal_ProofStatus env body _) as [response derr].
  eexists. eexists. reflexivity.
Qed.

Lemma RequestProofFromServer_ok_after_response {S} (env : Env) (jsonBody : Json)
      (w : World S) (resp : Response) :
  url_ok env (KonaServerUrl (Cfg env)) = true ->
  client_Do env (trace w)
            (Header_Set_ContentType
               {| Method := "POST"; URL := KonaServerUrl (Cfg env);
                  ContentType := None; ReqBody := Some jsonBody |}
               "application/json") = Ok resp ->
  exists proofId, fst (RequestProofFromServer env jsonBody w) = Ok proofId.
Proof.
  intros Hurl Hdo. unfold RequestProofFromServer, http_NewRequest. rewrite Hurl.
  unfold bind, wrap, http_Do. rewrite Hdo.
  destruct (ReadAll resp) as [body rerr].
  destruct (json_Unmarshal_ProofResponse env body _) as [response derr].
  eexists. reflexivity.
Qed.

(** ** Timeout of a SPAN: the two halves *)

Section Split.
Import proofrequest.

(** [NewEntry("SPAN", s, e)] on a store that accepts the range: it does
    not refuse duplicates, or no live SPAN overlaps the range. *)
Lemma db_NewEntry_span_accepted (c : Store.Checks) (s e : Z) (w : World Store.t) :
  (Store.check_duplicate c = true ->
   forall r, In r (Store.rows (db w)) -> Store.conflicts TypeSPAN s e r = false) ->
  @db_NewEntry _ (MemDB c) "SPAN" s e w
  = (Ok tt,
     mkWorld (Store.mk (Store.rows (db w)
                          ++ [Store.newRow (Store.nextID (db w)) TypeSPAN s e])
                       (Store.nextID (db w) + 1))
             (now w)
             (trace w ++ [EvDB (CallNewEntry "SPAN" s e) None])).
Proof.
  intros Hfree. unfold db_NewEntry, db_write. simpl.
  unfold Store.newEntry. rewrite parse_SPAN.
  destruct (Store.check_duplicate c); [| reflexivity].
  rewrite (existsb_false_forall _ _ (Hfree eq_refl)). reflexivity.
Qed.

(** [NewEntry("SPAN", s, e)] on a store where the range is free. *)
Lemma db_NewEntry_span_free (c : Store.Checks) (s e : Z) (w : World Store.t) :
  (forall r, In r (Store.rows (db w)) -> Store.conflicts TypeSPAN s e r = false) ->
  @db_NewEntry _ (MemDB c) "SPAN" s e w
  = (Ok tt,
     mkWorld (Store.mk (Store.rows (db w)
                          ++ [Store.newRow (Store.nextID (db w)) TypeSPAN s e])
                       (Store.nextID (db w) + 1))
             (now w)
             (trace w ++ [EvDB (CallNewEntry "SPAN" s e) None])).
Proof.
  intros Hfree. apply db_NewEntry_span_accepted. intros _. exact Hfree.
Qed.

(** The timeout block on a SPAN in REQ whose range nothing else occupies:
    the row is set to FAILED and the two halves are appended. *)
Lemma onTimeout_span (c : Store.Checks) (w : World Store.t)
      (req : ent.ProofRequest) :
  let s := ent.StartBlock req in
  let e := ent.EndBlock req in
  let m := s + (e - s) / 2 in
  let n := Store.nextID (db w) in
  ent.Type_ req = TypeSPAN ->
  0 <= s -> s < e -> e < two64 ->
  Store.findRow (ent.ID req) (Store.rows (db w)) = Some req ->
  ent.Status req = StatusREQ ->
  (Store.check_duplicate c = true ->
   forall r, In r (Store.rows (db w)) -> ent.ID r <> ent.ID req ->
             Store.conflicts TypeSPAN s e r = false) ->
  exists w',
    @onTimeout _ (MemDB c) req w = (Ok tt, w')
    /\ Store.rows (db w')
       = Store.updateRows (ent.ID req) (Store.setStatus (now w) StatusFAILED)
                          (Store.rows (db w))
         ++ [Store.newRow n TypeSPAN s m; Store.newRow (n + 1) TypeSPAN (m + 1) e].
Proof.
  intros s e m n Hty Hs Hse He Hfind Hst Hfree.
  pose proof (midpoint_bounds s e Hse) as [Hm1 Hm2]. fold m in Hm1, Hm2.
  unfold onTimeout. rewrite Hty. cbv zeta.
  rewrite midpoint_exact by (fold s e; lia). fold s e m.
  unfold bind at 1.
  unfold db_UpdateProofStatus, db_write. simpl.
  unfold Store.updateProofStatus. rewrite parse_FAILED, Hfind, Hst.
  simpl. rewrite andb_false_r.
  replace (u64_add m 1) with (m + 1)
    by (unfold u64_add; rewrite u64_small; [reflexivity | lia]).
  unfold bind, ret.
  rewrite db_NewEntry_span_accepted.
  2:{ simpl. intros Hdup r Hr.
      apply (conflicts_shrink TypeSPAN s e); [| lia | lia].
      eapply free_after_failed; [exact (Hfree Hdup) | exact Hr]. }
  rewrite db_NewEntry_span_accepted.
  2:{ simpl. intros Hdup r Hr. apply in_app_or in Hr.
      destruct Hr as [Hr | [<- | []]].
      - apply (conflicts_shrink TypeSPAN s e); [| lia | lia].
        eapply free_after_failed; [exact (Hfree Hdup) | exact Hr].
      - apply conflicts_newRow_right. }
  eexists. split; [reflexivity |].
  simpl. rewrite <- app_assoc. reflexivity.
Qed.

(** The loop body on a timed-out SPAN that the prover has not fulfilled. *)
Lemma processPending_span_timeout (c : Store.Checks) (env : Env) (w : World Store.t)
      (req : ent.ProofRequest) :
  let s := ent.StartBlock req in
  let e := ent.EndBlock req in
  let m := s + (e - s) / 2 in
  let n := Store.nextID (db w) in
  ent.Type_ req = TypeSPAN ->
  0 <= s -> s < e -> e < two64 ->
  Store.findRow (ent.ID req) (Store.rows (db w)) = Some req ->
  ent.Status req = StatusREQ ->
  i64_add (ent.ProofRequestTime req) (MaxProofTime (Cfg env)) < now w ->
  (forall proof w1,
      GetProofStatus env (ent.ProverRequestID req) w
      <> (Ok ("PROOF_FULFILLED", proof), w1)) ->
  (Store.check_duplicate c = true ->
   forall r, In r (Store.rows (db w)) -> ent.ID r <> ent.ID req ->
             Store.conflicts TypeSPAN s e r = false) ->
  exists w',
    @processPending _ (MemDB c) env req w = (Ok tt, w')
    /\ Store.rows (db w')
       = Store.updateRows (ent.ID req) (Store.setStatus (now w) StatusFAILED)
                          (Store.rows (db w))
         ++ [Store.newRow n TypeSPAN s m; Store.newRow (n + 1) TypeSPAN (m + 1) e].
Proof.
  intros s e m n Hty Hs Hse He Hfind Hst Htime Hpoll Hfree.
  unfold processPending, bind, try_.
  destruct (GetProofStatus env (ent.ProverRequestID req) w) as [r w1] eqn:Epoll.
  pose proof (GetProofStatus_frame env (ent.ProverRequestID req) w) as [Hdb Hnow].
  rewrite Epoll in Hdb, Hnow. simpl in Hdb, Hnow.
  destruct (onTimeout_span c w1 req) as [w' [Hrun Hrows]];
    try assumption; try (rewrite Hdb; assumption).
  rewrite Hdb, Hnow in Hrows.
  assert (Hlate : (now w1 >? i64_add (ent.ProofRequestTime req)
                                     (MaxProofTime (Cfg env))) = true)
    by (rewrite Hnow; apply Z.gtb_lt; exact Htime).
  exists w'. split; [| exact Hrows].
  destruct r as [[status proof] | err]; simpl.
  - destruct (String.eqb_spec status "PROOF_FULFILLED") as [-> | _].
    + exfalso. exact (Hpoll proof w1 eq_refl).
    + simpl. unfold time_Now_Unix. rewrite Hlate. exact Hrun.
  - unfold time_Now_Unix. rewrite Hlate. exact Hrun.
Qed.

(** A loop over [xs ++ ys] whose part over [xs] ends without an error goes
    on with [ys] from the world the first part left. *)
Lemma forM__app {S A} (xs ys : list A) (body : A -> M S unit) (w w1 : World S) :
  forM_ xs body w = (Ok tt, w1) ->
  forM_ (xs ++ ys) body w = forM_ ys body w1.
Proof.
  revert w. induction xs as [| x xs IH]; intros w H.
  - simpl in H. injection H as <-. reflexivity.
  - cbn [app forM_] in *. unfold bind in *.
    destruct (body x w) as [[u | e] w0]; [| discriminate].
    apply IH. exact H.
Qed.

(** A row is out of reach of the writes made for an entry with another
    id: rows are changed by id only, and inserts append. *)
Lemma updateRows_keeps (id : Z) (f : ent.ProofRequest -> ent.ProofRequest)
      (x : ent.ProofRequest) (rs : list ent.ProofRequest) :
  ent.ID x <> id -> In x rs -> In x (Store.updateRows id f rs).
Proof.
  intros Hid Hin. unfold Store.updateRows. apply in_map_iff. exists x.
  split; [| exact Hin].
  destruct (Z.eqb_spec (ent.ID x) id); [contradiction | reflexivity].
Qed.

Lemma keeps_bind {A B} (K : World Store.t -> Prop)
      (m : M Store.t A) (k : A -> M Store.t B) (w : World Store.t) :
  (K w -> K (snd (m w))) ->
  (forall a w', K w' -> K (snd (k a w'))) ->
  K w -> K (snd (bind m k w)).
Proof.
  intros Hm Hk Hw. unfold bind. specialize (Hm Hw).
  destruct (m w) as [[a | e] w']; simpl in *; [apply Hk |]; assumption.
Qed.

Lemma db_write_db {S} (c : DBCall) (op : S -> goerr * S) (w : World S) :
  db (snd (db_write c op w)) = snd (op (db w)).
Proof. unfold db_write. destruct (op (db w)). reflexivity. Qed.

Lemma db_NewEntry_keeps (c : Store.Checks) (ty : string) (s e : Z)
      (x : ent.ProofRequest) (w : World Store.t) :
  In x (Store.rows (db w)) ->
  In x (Store.rows (db (snd (@db_NewEntry _ (MemDB c) ty s e w)))).
Proof.
  intros Hin. unfold db_NewEntry. rewrite db_write_db. cbn [NewEntry MemDB].
  unfold Store.newEntry.
  destruct (Store.parse_Type ty); [| exact Hin].
  destruct (_ && _); [exact Hin |].
  simpl. apply in_or_app. left. exact Hin.
Qed.

Lemma db_UpdateProofStatus_keeps (c : Store.Checks) (id : Z) (status : string)
      (x : ent.ProofRequest) (w : World Store.t) :
  ent.ID x <> id ->
  In x (Store.rows (db w)) ->
  In x (Store.rows (db (snd (@db_UpdateProofStatus _ (MemDB c) id status w)))).
Proof.
  intros Hid Hin. unfold db_UpdateProofStatus. rewrite db_write_db.
  cbn [UpdateProofStatus MemDB]. unfold Store.updateProofStatus.
  destruct (Store.parse_Status status); [| exact Hin].
  destruct (Store.findRow id _); [| exact Hin].
  destruct (_ && _); [exact Hin |].
  simpl. apply updateRows_keeps; assumption.
Qed.

Lemma db_AddProof_keeps (c : Store.Checks) (id : Z) (proof : bytes)
      (x : ent.ProofRequest) (w : World Store.t) :
  ent.ID x <> id ->
  In x (Store.rows (db w)) ->
  In x (Store.rows (db (snd (@db_AddProof _ (MemDB c) id proof w)))).
Proof.
  intros Hid Hin. unfold db_AddProof. rewrite db_write_db.
  cbn [AddProof MemDB]. unfold Store.addProof.
  destruct (Store.findRow id _); [| exact Hin].
  destruct (_ && _); [exact Hin |].
  simpl. apply updateRows_keeps; assumption.
Qed.

Lemma processPending_keeps (c : Store.Checks) (env : Env)
      (req x : ent.ProofRequest) (w : World Store.t) :
  ent.ID x <> ent.ID req ->
  In x (Store.rows (db w)) ->
  In x (Store.rows (db (snd (@processPending _ (MemDB c) env req w)))).
Proof.
  intros Hid.
  set (K := fun w : World Store.t => In x (Store.rows (db w))).
  change (K w -> K (snd (@processPending _ (MemDB c) env req w))).
  unfold processPending.
  apply keeps_bind.
  - unfold try_, K.
    pose proof (GetProofStatus_frame env (ent.ProverRequestID req) w) as [Hdb _].
    destruct (GetProofStatus env (ent.ProverRequestID req) w) as [[sp | err] w1];
      simpl in *; rewrite Hdb; auto.
  - intros r w1.
    destruct (match r with Ok sp => sp | Err _ => (EmptyString, []) end)
      as [status proof].
    apply keeps_bind.
    + unfold when_. destruct (String.eqb status "PROOF_FULFILLED"); [| auto].
      apply db_AddProof_keeps. exact Hid.
    + intros _ w2. apply keeps_bind; [auto |].
      intros unix w3. unfold when_. destruct (_ >? _); [| auto].
      unfold onTimeout. apply keeps_bind.
      * apply db_UpdateProofStatus_keeps. exact Hid.
      * intros _ w4. apply keeps_bind.
        { unfold when_. destruct (Type_eqb _ _); [| auto].
          apply db_NewEntry_keeps. }
        intros _ w5. cbv zeta. cbn [splitLoop].
        apply keeps_bind; [apply db_NewEntry_keeps |].
        intros _ w6. apply keeps_bind; [apply db_NewEntry_keeps |].
        intros _ w7. auto.
Qed.

Lemma forM__processPending_keeps (c : Store.Checks) (env : Env)
      (x : ent.ProofRequest) (reqs : list ent.ProofRequest) :
  forall w : World Store.t,
    (forall r, In r reqs -> ent.ID x <> ent.ID r) ->
    In x (Store.rows (db w)) ->
    In x (Store.rows (db (snd (forM_ reqs (@processPending _ (MemDB c) env) w)))).
Proof.
  induction reqs as [| r reqs IH]; intros w Hids Hin.
  - exact Hin.
  - cbn [forM_]. unfold bind.
    pose proof (processPending_keeps c env r x w (Hids r (or_introl eq_refl)) Hin) as H1.
    destruct (@processPending _ (MemDB c) env r w) as [[u | e] w1]; simpl in H1.
    + apply IH; [| exact H1]. intros r' Hr'. apply Hids. right. exact Hr'.
    + exact H1.
Qed.

(** C6, as amended.  A timed-out SPAN entry [[s, e]] with [s < e] stands in
    the list of pending entries after the entries [before]; the pass of
    [ProcessPendingProofs] over [before] ended without an error, in the
    world [w1].  There the prover does not report the entry fulfilled, the
    store still holds the entry under its id, and, if the store refuses
    duplicates, no other live SPAN overlaps [[s, e]].  Then the run sets
    the entry to FAILED and appends exactly two rows, the UNREQ SPAN
    entries [[s, m]] and [[m + 1, e]] with [m = s + (e - s) / 2], and goes
    on with the pending entries after it; the two rows are in the store
    when the run ends, whatever happens to the later entries, as long as
    none of those has the id of one of them.  Both halves are non-empty,
    and together they cover [[s, e]] with no gap and no overlap.  The store
    is the in-memory one with any choice of checks. *)
Theorem ProcessPendingProofs_reached_span_halves
        (c : Store.Checks) (env : Env) (w w1 : World Store.t)
        (before after : list ent.ProofRequest) (req : ent.ProofRequest) :
  let s := ent.StartBlock req in
  let e := ent.EndBlock req in
  let m := s + (e - s) / 2 in
  let n := Store.nextID (db w1) in
  let lower := Store.newRow n TypeSPAN s m in
  let upper := Store.newRow (n + 1) TypeSPAN (m + 1) e in
  let run := @ProcessPendingProofs _ (MemDB c) env w in
  Store.getAllPendingProofs (db w) = Ok (before ++ req :: after) ->
  forM_ before (@processPending _ (MemDB c) env) w = (Ok tt, w1) ->
  ent.Type_ req = TypeSPAN ->
  0 <= s -> s < e -> e < two64 ->
  i64_add (ent.ProofRequestTime req) (MaxProofTime (Cfg env)) < now w1 ->
  (forall proof w2,
      GetProofStatus env (ent.ProverRequestID req) w1
      <> (Ok ("PROOF_FULFILLED", proof), w2)) ->
  Store.findRow (ent.ID req) (Store.rows (db w1)) = Some req ->
  (Store.check_duplicate c = true ->
   forall r, In r (Store.rows (db w1)) -> ent.ID r <> ent.ID req ->
             Store.conflicts TypeSPAN s e r = false) ->
  exists w2,
    @processPending _ (MemDB c) env req w1 = (Ok tt, w2)
    /\ run = forM_ after (@processPending _ (MemDB c) env) w2
    /\ Store.rows (db w2)
       = Store.updateRows (ent.ID req) (Store.setStatus (now w1) StatusFAILED)
                          (Store.rows (db w1))
         ++ [lower; upper]
    /\ ((forall r, In r after -> ent.ID r <> n /\ ent.ID r <> n + 1) ->
        In lower (Store.rows (db (snd run))) /\ In upper (Store.rows (db (snd run))))
    /\ s <= m /\ m + 1 <= e
    /\ (forall x, s <= x <= e <-> (s <= x <= m \/ m + 1 <= x <= e))
    /\ (forall x, ~ (s <= x <= m /\ m + 1 <= x <= e)).
Proof.
  intros s e m n lower upper run Hpending Hbefore Hty Hs Hse He Htime Hpoll Hfind Hfree.
  pose proof (midpoint_bounds s e Hse) as [Hm1 Hm2]. fold m in Hm1, Hm2.
  assert (Hst : ent.Status req = StatusREQ).
  { unfold Store.getAllPendingProofs in Hpending. injection Hpending as Hlist.
    assert (Hin : In req (filter (Store.hasStatus StatusREQ) (Store.rows (db w))))
      by (rewrite Hlist; apply in_or_app; right; left; reflexivity).
    apply filter_In in Hin. destruct Hin as [_ Hreq].
    unfold Store.hasStatus in Hreq. destruct (ent.Status req); try discriminate.
    reflexivity. }
  destruct (processPending_span_timeout c env w1 req) as [w2 [Hbody Hrows]];
    try assumption.
  fold s e m n in Hrows. fold lower upper in Hrows.
  assert (Hrun : run = forM_ after (@processPending _ (MemDB c) env) w2).
  { unfold run, ProcessPendingProofs, bind, db_read.
    cbn [GetAllPendingProofs MemDB]. rewrite Hpending.
    rewrite (forM__app before (req :: after) _ w w1 Hbefore).
    cbn [forM_]. unfold bind. rewrite Hbody. reflexivity. }
  exists w2. split; [exact Hbody |]. split; [exact Hrun |].
  split; [exact Hrows |]. split.
  { intros Hfresh. rewrite Hrun. split.
    - apply forM__processPending_keeps.
      + intros r Hr. simpl. destruct (Hfresh r Hr) as [H1 _]. congruence.
      + rewrite Hrows. apply in_or_app. right. left. reflexivity.
    - apply forM__processPending_keeps.
      + intros r Hr. simpl. destruct (Hfresh r Hr) as [_ H2]. congruence.
      + rewrite Hrows. apply in_or_app. right. right. left. reflexivity. }
  split; [lia |]. split; [lia |]. split; intros x; lia.
Qed.
End Split.

(** ** Chunking a span batch *)

Section Chunking.
Import proofrequest.

Lemma maxEnd_exact next cap :
  0 <= next -> 1 <= cap -> next + cap <= two64 ->
  u64_sub (u64_add next cap) 1 = next + cap - 1.
Proof.
  intros Hn Hc Hsum. unfold u64_sub, u64_add.
  destruct (Z.eq_dec (next + cap) two64) as [Heq | Hne].
  - rewrite Heq. reflexivity.
  - rewrite (u64_small (next + cap)) by lia. apply u64_small. lia.
Qed.

Lemma chunkLoop_tiles (c : Store.Checks) (env : Env) :
  let cap := MaxBlockRangePerSpanProof (Cfg env) in
  forall (fuel : nat) (end_ next : Z) (w : World Store.t),
    1 <= cap -> 0 <= next -> next <= end_ -> end_ < two53 ->
    end_ + cap <= two64 ->
    (Z.to_nat (end_ - next) < fuel)%nat ->
    (forall r, In r (Store.rows (db w)) ->
               Store.conflicts TypeSPAN next end_ r = false) ->
    exists rs w',
      @chunkLoop _ (MemDB c) env fuel end_ next w = Some (Ok tt, w')
      /\ Store.rows (db w') = Store.rows (db w) ++ spanRows (Store.nextID (db w)) rs
      /\ Tiling cap next end_ rs.
Proof.
  intros cap fuel.
  induction fuel as [| fuel IH]; intros end_ next w Hcap Hn Hle He Hsum Hfuel Hfree.
  - lia.
  - cbn [chunkLoop]. fold cap.
    rewrite maxEnd_exact by (unfold two53, two64 in *; lia).
    rewrite chunk_end by lia.
    set (tmpEnd := Z.min (next + cap - 1) end_).
    assert (Hte : next <= tmpEnd <= end_) by (unfold tmpEnd; lia).
    rewrite db_NewEntry_span_free.
    2:{ intros r Hr. apply (conflicts_shrink TypeSPAN next end_); [auto | lia | lia]. }
    destruct (Z.eqb_spec tmpEnd end_) as [Hlast | Hmore].
    + exists [(next, end_)]. eexists. split; [reflexivity |].
      split; [simpl; rewrite Hlast; reflexivity |].
      apply Tiling_last; [lia | unfold tmpEnd in Hlast; lia].
    + assert (Hcut : tmpEnd = next + cap - 1) by (unfold tmpEnd in *; lia).
      replace (u64_add tmpEnd 1) with (tmpEnd + 1)
        by (unfold u64_add; rewrite u64_small;
            [reflexivity | unfold two53, two64 in *; lia]).
      match goal with
      | |- context [chunkLoop env fuel end_ (tmpEnd + 1) ?w0] =>
          destruct (IH end_ (tmpEnd + 1) w0) as [rs [w' [Hrun [Hrows Htile]]]]
      end; try lia.
      { simpl. intros r Hr. apply in_app_or in Hr. destruct Hr as [Hr | [<- | []]].
        - apply (conflicts_shrink TypeSPAN next end_); [auto | lia | lia].
        - apply conflicts_newRow_right. }
      exists ((next, tmpEnd) :: rs), w'. split; [exact Hrun |].
      split.
      * rewrite Hrows. simpl. rewrite <- app_assoc. reflexivity.
      * apply Tiling_step; [lia | lia | lia | exact Htile].
Qed.
End Chunking.

(** ** What the prover is sent *)

Section Bodies.
Import proofrequest.
Context {S : Type} {DB : ProofDB S}.
Variable env : Env.

Lemma posted_app tr1 tr2 : posted (tr1 ++ tr2) = posted tr1 ++ posted tr2.
Proof. unfold posted. apply flat_map_app. Qed.

(** [RequestProofFromServer] sends exactly its argument, and nothing when
    the request cannot be built. *)
Lemma RequestProofFromServer_posted (jsonBody : Json) (w : World S) :
  url_ok env (KonaServerUrl (Cfg env)) = true ->
  posted (trace (snd (RequestProofFromServer env jsonBody w)))
  = posted (trace w) ++ [jsonBody]
  /\ db (snd (RequestProofFromServer env jsonBody w)) = db w.
Proof.
  intros Hurl. unfold RequestProofFromServer, http_NewRequest. rewrite Hurl.
  unfold bind, wrap, http_Do.
  destruct (client_Do env (trace w) _) as [resp | e].
  - destruct (ReadAll resp) as [body rerr].
    destruct (json_Unmarshal_ProofResponse env body _) as [response derr].
    simpl. rewrite posted_app. split; reflexivity.
  - simpl. rewrite posted_app. split; reflexivity.
Qed.

Lemma db_write_posted (c : DBCall) (op : S -> goerr * S) (w : World S) :
  posted (trace (snd (db_write c op w))) = posted (trace w).
Proof.
  unfold db_write. destruct (op (db w)) as [r s']. simpl.
  rewrite posted_app. simpl. apply app_nil_r.
Qed.

Lemma RequestKonaProof_span_posted (p : ent.ProofRequest) (w : World S) :
  ent.Type_ p = TypeSPAN ->
  url_ok env (KonaServerUrl (Cfg env)) = true ->
  posted (trace (snd (RequestKonaProof env p w)))
  = posted (trace w)
    ++ [JObject [("start", JNumber (u64_sub (ent.StartBlock p) 1));
                 ("end", JNumber (ent.EndBlock p))]].
Proof.
  intros Hty Hurl. unfold RequestKonaProof. rewrite Hty. cbv zeta.
  unfold RequestSpanProof, json_Marshal_SpanProofRequest. cbn [span_Start span_End].
  set (body := JObject _).
  pose proof (RequestProofFromServer_posted body w Hurl) as [Hsent _].
  unfold bind, wrap at 1 2.
  destruct (RequestProofFromServer env body w) as [[proofId | e] w1]; simpl in *.
  - unfold db_SetProverRequestID.
    destruct (db_write _ _ w1) as [r2 w2] eqn:E2.
    pose proof (db_write_posted (CallSetProverRequestID (ent.ID p) proofId)
                                (SetProverRequestID (ent.ID p) proofId) w1) as Hq.
    rewrite E2 in Hq. simpl in Hq.
    destruct r2; simpl; congruence.
  - exact Hsent.
Qed.
End Bodies.


Section Submitted.
Import proofrequest.
Context {S : Type} {DB : ProofDB S}.
Variable env : Env.

(** C2, as amended.  For every SPAN entry with stored range [[s, e]],
    [1 <= s <= e], the body [RequestKonaProof] posts to the prover is
    [{"start": s - 1, "end": e}]: the start sent is the block before the
    stored start (the source's [prevConfirmedBlock]), not the stored
    start. *)
Theorem RequestKonaProof_span_body (p : ent.ProofRequest) (w : World S) :
  ent.Type_ p = TypeSPAN ->
  1 <= ent.StartBlock p -> ent.StartBlock p <= ent.EndBlock p ->
  ent.EndBlock p < two64 ->
  url_ok env (KonaServerUrl (Cfg env)) = true ->
  posted (trace (snd (RequestKonaProof env p w)))
  = posted (trace w)
    ++ [JObject [("start", JNumber (ent.StartBlock p - 1));
                 ("end", JNumber (ent.EndBlock p))]].
Proof.
  intros Hty Hs Hse He Hurl.
  rewrite <- (u64_sub_1 (ent.StartBlock p)) by lia.
  apply RequestKonaProof_span_posted; assumption.
Qed.

(** C3, as amended.  For every AGG entry submitted to the prover, the body
    posted is [{"subproofs": [...]}] and nothing else: it carries the
    subproofs the store returns for [[s - 1, e]], and no [head] field; the
    L1 checkpoint recorded for the entry is not sent. *)
Theorem RequestKonaProof_agg_body (p : ent.ProofRequest) (w : World S)
        (subproofs : list bytes) :
  ent.Type_ p = TypeAGG ->
  url_ok env (KonaServerUrl (Cfg env)) = true ->
  GetSubproofs (u64_sub (ent.StartBlock p) 1) (ent.EndBlock p) (db w) = Ok subproofs ->
  let body := JObject [("subproofs", JArray (map JBase64 subproofs))] in
  posted (trace (snd (RequestKonaProof env p w))) = posted (trace w) ++ [body]
  /\ json_field "subproofs" body = Some (JArray (map JBase64 subproofs))
  /\ json_field "head" body = None.
Proof.
  intros Hty Hurl Hsub body.
  split; [| split; reflexivity].
  unfold RequestKonaProof. rewrite Hty. cbv zeta.
  unfold RequestAggProof, db_read.
  unfold bind, wrap. cbv beta. rewrite Hsub. cbv beta iota.
  unfold json_Marshal_AggProofRequest. cbn [agg_Subproofs]. fold body.
  pose proof (RequestProofFromServer_posted env body w Hurl) as [Hsent _].
  destruct (RequestProofFromServer env body w) as [[proofId | e] w1]; simpl in *.
  - unfold db_SetProverRequestID.
    pose proof (db_write_posted (CallSetProverRequestID (ent.ID p) proofId)
                                (SetProverRequestID (ent.ID p) proofId) w1) as Hq.
    destruct (db_write _ _ w1) as [r2 w2].
    simpl in Hq. destruct r2; simpl; congruence.
  - exact Hsent.
Qed.
End Submitted.

Lemma RequestKonaProof_span_body_witness :
  posted (trace (snd (@RequestKonaProof _ SpecDB Fixture.env
                                         Fixture.queuedSpan Fixture.oneQueued)))
  = [] ++ [JObject [("start", JNumber (1001 - 1)); ("end", JNumber 1100)]].
Proof.
  apply (@RequestKonaProof_span_body _ SpecDB Fixture.env
                                     Fixture.queuedSpan Fixture.oneQueued).
  - reflexivity.
  - simpl. lia.
  - simpl. lia.
  - reflexivity.
  - reflexivity.
Defined.

(** C2 fails as stated.  The worker for the queued SPAN [[1001,1100]] posts
    [{"start": 1000, "end": 1100}], not the stored range; for a SPAN stored
    from block 0 the start posted is [2^64 - 1]. *)
Lemma RequestQueuedProofs_span_body_counterexample :
  posted (trace (snd (@RequestQueuedProofs _ SpecDB Fixture.env [] Fixture.oneQueued)))
  = [JObject [("start", JNumber 1000); ("end", JNumber 1100)]]
  /\ posted (trace (snd (@RequestQueuedProofs _ SpecDB Fixture.env [] Fixture.oneQueued)))
     <> [JObject [("start", JNumber 1001); ("end", JNumber 1100)]]
  /\ posted (trace (snd (@RequestQueuedProofs _ SpecDB Fixture.env [] Fixture.genesisQueued)))
     = [JObject [("start", JNumber (two64 - 1)); ("end", JNumber 10)]].
Proof.
  split; [| split].
  - vm_compute. reflexivity.
  - vm_compute. intros H. inversion H.
  - vm_compute. reflexivity.
Qed.

Lemma RequestKonaProof_agg_body_witness :
  let body := JObject [("subproofs",
                        JArray (map JBase64 [Fixture.proofBytes; Fixture.proofBytes]))] in
  posted (trace (snd (@RequestKonaProof _ SpecDB Fixture.env
                                         Fixture.queuedAgg Fixture.aggQueued)))
  = [] ++ [body]
  /\ json_field "subproofs" body
     = Some (JArray (map JBase64 [Fixture.proofBytes; Fixture.proofBytes]))
  /\ json_field "head" body = None.
Proof.
  apply (@RequestKonaProof_agg_body _ SpecDB Fixture.env
                                    Fixture.queuedAgg Fixture.aggQueued).
  - reflexivity.
  - reflexivity.
  - vm_compute. reflexivity.
Defined.

(** C3 fails as stated.  The queued AGG [[1001,1300]] gets its checkpoint
    (block 77) recorded and is submitted; the one body posted has a
    [subproofs] field and no [head] field. *)
Lemma RequestQueuedProofs_agg_body_counterexample :
  let w' := snd (@RequestQueuedProofs _ SpecDB Fixture.env [] Fixture.aggQueued) in
  map (fun r => (summary r, ent.L1BlockNumber r, ent.L1BlockHash r))
      (filter (Store.matchesAgg 1001 1300) (Store.rows (db w')))
  = [((3, proofrequest.TypeAGG, 1001, 1300, proofrequest.StatusREQ), 77, "0xabc")]
  /\ exists body,
      posted (trace w') = [body]
      /\ json_field "subproofs" body <> None
      /\ json_field "head" body = None.
Proof.
  split.
  - vm_compute. reflexivity.
  - eexists. split; [vm_compute; reflexivity |].
    split; [discriminate | reflexivity].
Qed.

(** ** Scenarios the code gets wrong *)

(** C1 (the code departs from it).  A timed-out AGG is marked FAILED and
    re-queued as one UNREQ AGG, but the code then goes on into the SPAN
    split for it.  On a store that carries out the inserts, scenario 4 ends
    with two new SPAN entries, [[1001,1150]] and [[1151,1300]], next to the
    COMPLETE ones; the spec's store does the same once the COMPLETE SPANs
    are gone, and with them present it refuses the first insert as a
    duplicate, which ends the phase with that error. *)
Theorem ProcessPendingProofs_agg_timeout_splits :
  let plain := @ProcessPendingProofs _ PlainDB Fixture.env Fixture.aggTimedOut in
  let alone := @ProcessPendingProofs _ SpecDB Fixture.env Fixture.aggTimedOutAlone in
  let spec := @ProcessPendingProofs _ SpecDB Fixture.env Fixture.aggTimedOut in
  (fst plain = Ok tt
   /\ table (snd plain)
      = [(1, proofrequest.TypeSPAN, 1001, 1100, proofrequest.StatusCOMPLETE);
         (2, proofrequest.TypeSPAN, 1101, 1200, proofrequest.StatusCOMPLETE);
         (3, proofrequest.TypeSPAN, 1201, 1300, proofrequest.StatusCOMPLETE);
         (4, proofrequest.TypeAGG, 1001, 1300, proofrequest.StatusFAILED);
         (5, proofrequest.TypeAGG, 1001, 1300, proofrequest.StatusUNREQ);
         (6, proofrequest.TypeSPAN, 1001, 1150, proofrequest.StatusUNREQ);
         (7, proofrequest.TypeSPAN, 1151, 1300, proofrequest.StatusUNREQ)])
  /\ (fst alone = Ok tt
      /\ table (snd alone)
         = [(4, proofrequest.TypeAGG, 1001, 1300, proofrequest.StatusFAILED);
            (5, proofrequest.TypeAGG, 1001, 1300, proofrequest.StatusUNREQ);
            (6, proofrequest.TypeSPAN, 1001, 1150, proofrequest.StatusUNREQ);
            (7, proofrequest.TypeSPAN, 1151, 1300, proofrequest.StatusUNREQ)])
  /\ (fst spec = Err (ErrorNew "Duplicate")
      /\ dbCalls (trace (snd spec))
         = [(CallUpdateProofStatus 4 "FAILED", None);
            (CallNewEntry "AGG" 1001 1300, None);
            (CallNewEntry "SPAN" 1001 1150, Some (ErrorNew "Duplicate"))]).
Proof.
  cbv zeta. repeat split; vm_compute; reflexivity.
Qed.


(** C5 (the code departs from it).  The timeout of the one-block SPAN
    [[5,5]] creates the entries [[5,5]] and [[6,5]]; the second has its
    start after its end. *)
Theorem ProcessPendingProofs_unit_span_timeout :
  let run := @ProcessPendingProofs _ SpecDB Fixture.env Fixture.unitSpanTimedOut in
  fst run = Ok tt
  /\ table (snd run)
     = [(1, proofrequest.TypeSPAN, 5, 5, proofrequest.StatusFAILED);
        (2, proofrequest.TypeSPAN, 5, 5, proofrequest.StatusUNREQ);
        (3, proofrequest.TypeSPAN, 6, 5, proofrequest.StatusUNREQ)]
  /\ exists r, In r (Store.rows (db (snd run)))
               /\ ent.Status r = proofrequest.StatusUNREQ
               /\ ent.EndBlock r < ent.StartBlock r.
Proof.
  cbv zeta. split; [vm_compute; reflexivity |].
  split; [vm_compute; reflexivity |].
  exists (Store.newRow 3 proofrequest.TypeSPAN 6 5).
  split; [vm_compute; right; right; left; reflexivity |].
  split; [reflexivity | simpl; lia].
Qed.

Lemma ProcessPendingProofs_reached_span_halves_witness :
  let run := @ProcessPendingProofs _ SpecDB Fixture.env Scenario.threePending in
  exists w2,
    run = forM_ [Scenario.laterSpan] (@processPending _ SpecDB Fixture.env) w2
    /\ table w2
       = [(1, proofrequest.TypeSPAN, 901, 1000, proofrequest.StatusREQ);
          (2, proofrequest.TypeSPAN, 1001, 1100, proofrequest.StatusFAILED);
          (3, proofrequest.TypeSPAN, 1101, 1200, proofrequest.StatusREQ);
          (4, proofrequest.TypeSPAN, 1001, 1050, proofrequest.StatusUNREQ);
          (5, proofrequest.TypeSPAN, 1051, 1100, proofrequest.StatusUNREQ)]
    /\ In (Store.newRow 4 proofrequest.TypeSPAN 1001 1050) (Store.rows (db (snd run)))
    /\ In (Store.newRow 5 proofrequest.TypeSPAN 1051 1100) (Store.rows (db (snd run))).
Proof.
  cbv zeta.
  destruct (ProcessPendingProofs_reached_span_halves
              {| Store.check_transition := true; Store.check_duplicate := true |}
              Fixture.env Scenario.threePending
              (snd (forM_ [Scenario.earlierSpan] (@processPending _ SpecDB Fixture.env)
                          Scenario.threePending))
              [Scenario.earlierSpan] [Scenario.laterSpan] Scenario.middleSpan)
    as [w2 [_ [Hrun [Hrows [Hkept _]]]]].
  - reflexivity.
  - vm_compute. reflexivity.
  - reflexivity.
  - simpl. lia.
  - simpl. lia.
  - reflexivity.
  - vm_compute. reflexivity.
  - intros proof w2. vm_compute. discriminate.
  - vm_compute. reflexivity.
  - intros _ r Hr Hid. vm_compute in Hr.
    destruct Hr as [<- | [<- | [<- | []]]];
      [reflexivity | exfalso; apply Hid; reflexivity | reflexivity].
  - exists w2. split; [exact Hrun |]. split.
    + unfold table. rewrite Hrows. vm_compute. reflexivity.
    + apply Hkept. intros r [<- | []]. simpl. lia.
Defined.

(** C6 fails as stated.  On the spec's store, the timed-out SPAN
    [[1301,1400]] that is pending behind the timed-out AGG of scenario 4
    gets no halves: the store refuses the first SPAN insert made for the
    AGG, and the run returns that error before it reaches the entry, which
    stays in REQ.  The timed-out SPAN [[1001,1100]] that the prover reports
    fulfilled gets none either: the run returns the store's refusal of the
    step from COMPLETE to FAILED. *)
Lemma ProcessPendingProofs_span_halves_counterexample :
  let behind := @ProcessPendingProofs _ SpecDB Fixture.env Scenario.spanBehindAgg in
  let late := @ProcessPendingProofs _ SpecDB Fixture.env Fixture.spanFulfilledLate in
  (map summary (filter (Store.hasStatus proofrequest.StatusREQ)
                       (Store.rows (db Scenario.spanBehindAgg)))
   = [(4, proofrequest.TypeAGG, 1001, 1300, proofrequest.StatusREQ);
      (5, proofrequest.TypeSPAN, 1301, 1400, proofrequest.StatusREQ)]
   /\ fst behind = Err (ErrorNew "Duplicate")
   /\ table (snd behind)
      = [(1, proofrequest.TypeSPAN, 1001, 1100, proofrequest.StatusCOMPLETE);
         (2, proofrequest.TypeSPAN, 1101, 1200, proofrequest.StatusCOMPLETE);
         (3, proofrequest.TypeSPAN, 1201, 1300, proofrequest.StatusCOMPLETE);
         (4, proofrequest.TypeAGG, 1001, 1300, proofrequest.StatusFAILED);
         (5, proofrequest.TypeSPAN, 1301, 1400, proofrequest.StatusREQ);
         (6, proofrequest.TypeAGG, 1001, 1300, proofrequest.StatusUNREQ)])
  /\ (fst late = Err (ErrorNew "IllegalTransition")
      /\ table (snd late)
         = [(1, proofrequest.TypeSPAN, 1001, 1100, proofrequest.StatusCOMPLETE)]).
Proof.
  cbv zeta. split; [split; [| split] | split]; vm_compute; reflexivity.
Qed.

(** C7 (the code departs from it).  When the prover answers with a body
    that is not JSON, or one that breaks off while it is read, both decoders
    report an error, and yet [GetProofStatus] returns the empty status and
    no proof with a [nil] error, and [RequestProofFromServer] returns the
    empty proof id with a [nil] error. *)
Theorem prover_client_drops_body_errors :
  let page := "<html>502 Bad Gateway</html>" in
  snd (json_Unmarshal_ProofStatus Fixture.garbledEnv page
         {| status_Status := ""; status_Proof := [] |}) <> None
  /\ snd (json_Unmarshal_ProofResponse Fixture.garbledEnv page
            {| resp_ProofID := "" |}) <> None
  /\ fst (GetProofStatus Fixture.garbledEnv "slow" Fixture.emptyStore) = Ok ("", [])
  /\ fst (RequestProofFromServer Fixture.garbledEnv
            (JObject [("start", JNumber 1000); ("end", JNumber 1100)])
            Fixture.emptyStore) = Ok ""
  /\ fst (GetProofStatus Fixture.truncatedEnv "slow" Fixture.emptyStore) = Ok ("", [])
  /\ fst (RequestProofFromServer Fixture.truncatedEnv
            (JObject [("start", JNumber 1000); ("end", JNumber 1100)])
            Fixture.emptyStore) = Ok "".
Proof.
  cbv zeta. repeat split; try discriminate; reflexivity.
Qed.

(** C8 (the code departs from it).  Two SPANs are queued and both
    goroutines run after the loop has finished, so both read the loop
    variable when it holds entry 2.  The goroutine started for entry 1
    submits the range of entry 1 and sets the prover id of entry 1, but its
    status writes go to entry 2.  When each goroutine runs before the loop
    moves on, every call uses the goroutine's own entry. *)
Theorem RequestQueuedProofs_worker_ids :
  let late := @RequestQueuedProofs _ PlainDB Fixture.env [] Fixture.twoQueued in
  let spec := @RequestQueuedProofs _ SpecDB Fixture.env [] Fixture.twoQueued in
  let prompt := @RequestQueuedProofs _ SpecDB Fixture.env [1%nat; 1%nat] Fixture.twoQueued in
  (dbCalls (trace (snd late))
   = [(CallUpdateProofStatus 2 "REQ", None);
      (CallSetProverRequestID 1 "kona-1", None);
      (CallUpdateProofStatus 2 "REQ", None);
      (CallSetProverRequestID 2 "kona-1", None)]
   /\ posted (trace (snd late))
      = [JObject [("start", JNumber 1000); ("end", JNumber 1100)];
         JObject [("start", JNumber 1100); ("end", JNumber 1200)]]
   /\ table (snd late)
      = [(1, proofrequest.TypeSPAN, 1001, 1100, proofrequest.StatusUNREQ);
         (2, proofrequest.TypeSPAN, 1101, 1200, proofrequest.StatusREQ)])
  /\ (dbCalls (trace (snd spec))
      = [(CallUpdateProofStatus 2 "REQ", None);
         (CallSetProverRequestID 1 "kona-1", Some (ErrorNew "IllegalTransition"));
         (CallUpdateProofStatus 2 "FAILED", None);
         (CallUpdateProofStatus 2 "REQ", Some (ErrorNew "IllegalTransition"))]
      /\ table (snd spec)
         = [(1, proofrequest.TypeSPAN, 1001, 1100, proofrequest.StatusUNREQ);
            (2, proofrequest.TypeSPAN, 1101, 1200, proofrequest.StatusFAILED)])
  /\ dbCalls (trace (snd prompt))
     = [(CallUpdateProofStatus 1 "REQ", None);
        (CallSetProverRequestID 1 "kona-1", None);
        (CallUpdateProofStatus 2 "REQ", None);
        (CallSetProverRequestID 2 "kona-1", None)].
Proof.
  cbv zeta. split; [| split].
  - repeat split; vm_compute; reflexivity.
  - split; vm_compute; reflexivity.
  - vm_compute. reflexivity.
Qed.

(** C9 (the code departs from it).  On a store whose [AddL1BlockInfo] write
    fails, the queued AGG is submitted all the same: the failed write is
    followed by the step to REQ, the post of the subproofs and the prover
    id, and the entry ends in REQ with no checkpoint stored. *)
Theorem RequestQueuedProofs_ignores_checkpoint_failure :
  let run := @RequestQueuedProofs _ (FailingL1Info SpecDB) Fixture.env []
                                  Fixture.aggQueued in
  fst run = Ok tt
  /\ dbCalls (trace (snd run))
     = [(CallAddL1BlockInfo 1001 1300 77 "0xabc", Some (ErrorNew "AddL1BlockInfo failed"));
        (CallUpdateProofStatus 3 "REQ", None);
        (CallSetProverRequestID 3 "kona-1", None)]
  /\ posted (trace (snd run))
     = [JObject [("subproofs",
                  JArray [JBase64 Fixture.proofBytes; JBase64 Fixture.proofBytes])]]
  /\ map (fun r => (summary r, ent.L1BlockNumber r, ent.L1BlockHash r))
         (filter (Store.matchesAgg 1001 1300) (Store.rows (db (snd run))))
     = [((3, proofrequest.TypeAGG, 1001, 1300, proofrequest.StatusREQ), 0, "")].
Proof.
  cbv zeta. repeat split; vm_compute; reflexivity.
Qed.

(** ** Chunks of a span batch *)

Lemma Tiling_cover cap a e rs :
  Tiling cap a e rs ->
  forall x, a <= x <= e <-> exists r, In r rs /\ fst r <= x <= snd r.
Proof.
  induction 1 as [a e Hae Hcap | a b e rs Hab Hcap Hbe Htile IH]; intros x.
  - split.
    + intros Hx. exists (a, e). split; [left; reflexivity | exact Hx].
    + intros [r [[<- | []] Hx]]. exact Hx.
  - assert (Hbound : b + 1 <= e) by lia.
    split.
    + intros Hx. destruct (Z_le_gt_dec x b) as [Hle | Hgt].
      * exists (a, b). split; [left; reflexivity | simpl; lia].
      * destruct (proj1 (IH x)) as [r [Hin Hr]]; [lia |].
        exists r. split; [right; exact Hin | exact Hr].
    + intros [r [[<- | Hin] Hx]].
      * simpl in Hx. lia.
      * assert (b + 1 <= x <= e) by (apply IH; exists r; split; assumption).
        lia.
Qed.

(** Past [2^53] the chunk end is rounded: for the one-block batch at
    [2^53 + 1] it comes out as [2^53], which never equals the batch end, so
    the loop inserts the same empty range again and again. *)
Lemma chunkLoop_rounding_spins (fuel : nat) (w : World Store.t) :
  @chunkLoop _ PlainDB Fixture.env fuel (two53 + 1) (two53 + 1) w = None.
Proof.
  revert w. induction fuel as [| fuel IH]; intros w; [reflexivity |].
  cbn [chunkLoop].
  change (uint64_of_float64 (float_oor Fixture.env)
            (math_Min
               (float64_of_uint64
                  (u64_sub (u64_add (two53 + 1)
                                    (MaxBlockRangePerSpanProof (Cfg Fixture.env))) 1))
               (float64_of_uint64 (two53 + 1))))
    with two53.
  change (two53 =? two53 + 1) with false.
  change (u64_add two53 1) with (two53 + 1).
  unfold db_NewEntry, db_write. cbn [NewEntry PlainDB MemDB].
  unfold Store.newEntry. rewrite parse_SPAN.
  cbn [Store.check_duplicate andb].
  apply IH.
Qed.

Section Chunks.
Import proofrequest.

(** C10, as amended.  For every [next_block <= end < 2^53] and
    [MaxBlockRangePerSpanProof >= 1] with
    [end + MaxBlockRangePerSpanProof <= 2^64], on a store where no live SPAN
    overlaps [[next_block, end]], the chunking loop of
    [DeriveNewSpanBatches] ends, and the SPAN entries it creates have
    consecutive ranges, each of at most [MaxBlockRangePerSpanProof] blocks,
    that exactly cover [[next_block, end]].  In particular, on the empty
    store with [LatestBlockNumber = 1000], a cap of 100 and the span batch
    [[1001,1350]], [DeriveNewSpanBatches] creates the four UNREQ entries
    [[1001,1100]], [[1101,1200]], [[1201,1300]], [[1301,1350]]. *)
Theorem DeriveNewSpanBatches_chunks :
  (forall (c : Store.Checks) (env : Env) (fuel : nat) (end_ next : Z)
          (w : World Store.t),
      let cap := MaxBlockRangePerSpanProof (Cfg env) in
      1 <= cap -> 0 <= next -> next <= end_ -> end_ < two53 ->
      end_ + cap <= two64 ->
      (Z.to_nat (end_ - next) < fuel)%nat ->
      (forall r, In r (Store.rows (db w)) ->
                 Store.conflicts TypeSPAN next end_ r = false) ->
      exists rs w',
        @chunkLoop _ (MemDB c) env fuel end_ next w = Some (Ok tt, w')
        /\ Store.rows (db w') = Store.rows (db w) ++ spanRows (Store.nextID (db w)) rs
        /\ Tiling cap next end_ rs
        /\ (forall x, next <= x <= end_ <-> exists r, In r rs /\ fst r <= x <= snd r))
  /\ exists w',
      @DeriveNewSpanBatches _ SpecDB Fixture.env 5 Fixture.emptyStore = Some (Ok tt, w')
      /\ table w'
         = [(1, TypeSPAN, 1001, 1100, StatusUNREQ);
            (2, TypeSPAN, 1101, 1200, StatusUNREQ);
            (3, TypeSPAN, 1201, 1300, StatusUNREQ);
            (4, TypeSPAN, 1301, 1350, StatusUNREQ)].
Proof.
  split.
  - intros c env fuel end_ next w cap Hcap Hn Hle He Hsum Hfuel Hfree.
    destruct (chunkLoop_tiles c env fuel end_ next w Hcap Hn Hle He Hsum Hfuel Hfree)
      as [rs [w' [Hrun [Hrows Htile]]]].
    exists rs, w'.
    split; [exact Hrun |]. split; [exact Hrows |]. split; [exact Htile |].
    apply (Tiling_cover _ _ _ _ Htile).
  - eexists. split; vm_compute; reflexivity.
Qed.

Lemma DeriveNewSpanBatches_chunks_witness :
  exists rs w',
    @chunkLoop _ SpecDB Fixture.env 350 1350 1001 Fixture.emptyStore = Some (Ok tt, w')
    /\ Store.rows (db w') = [] ++ spanRows 1 rs
    /\ Tiling 100 1001 1350 rs
    /\ (forall x, 1001 <= x <= 1350 <-> exists r, In r rs /\ fst r <= x <= snd r).
Proof.
  apply (proj1 DeriveNewSpanBatches_chunks
               {| Store.check_transition := true; Store.check_duplicate := true |}
               Fixture.env 350%nat 1350 1001 Fixture.emptyStore).
  - simpl. lia.
  - lia.
  - lia.
  - reflexivity.
  - vm_compute. discriminate.
  - apply Nat.ltb_lt. vm_compute. reflexivity.
  - simpl. intros r [].
Defined.

(** C10 fails as stated.  With the cap set to [2^64 - 1] the sum
    [tmpStart + cap - 1] wraps: for the batch [[1001,1350]] the first entry
    created is [[1001,999]], and 1001 entries are created in all.  With the
    batch end at [2^53 + 1] the rounded chunk end never equals it, and the
    loop does not end. *)
Lemma chunkLoop_bounds_counterexample :
  (exists w',
      @chunkLoop _ SpecDB Fixture.hugeCapEnv 1001 1350 1001 Fixture.emptyStore
      = Some (Ok tt, w')
      /\ firstn 2 (table w')
         = [(1, TypeSPAN, 1001, 999, StatusUNREQ);
            (2, TypeSPAN, 1000, 998, StatusUNREQ)]
      /\ List.length (table w') = 1001%nat)
  /\ forall fuel,
      @chunkLoop _ PlainDB Fixture.env fuel (two53 + 1) (two53 + 1) Fixture.emptyStore
      = None.
Proof.
  split.
  - eexists. split; [vm_compute; reflexivity |].
    split; vm_compute; reflexivity.
  - intros fuel. apply chunkLoop_rounding_spins.
Qed.
End Chunks.

(** ** Further properties of the scheduler phases *)

Section Phases.
Import proofrequest.
Context {S : Type} {DB : ProofDB S}.
Variable env : Env.

Lemma dbCalls_app tr1 tr2 : dbCalls (tr1 ++ tr2) = dbCalls tr1 ++ dbCalls tr2.
Proof. unfold dbCalls. apply flat_map_app. Qed.

(** What [GetProofStatus] adds to the trace is at most its one request,
    which carries no body. *)
Lemma GetProofStatus_trace (proofId : string) (w : World S) :
  exists evs,
    trace (snd (GetProofStatus env proofId w)) = trace w ++ evs
    /\ dbCalls evs = [] /\ posted evs = [].
Proof.
  unfold GetProofStatus, http_NewRequest.
  destruct (url_ok env _).
  - unfold bind, wrap, http_Do.
    destruct (client_Do env (trace w) _) as [resp | e].
    + destruct (ReadAll resp) as [body rerr].
      destruct (json_Unmarshal_ProofStatus env body _) as [response derr].
      eexists. split; [reflexivity | split; reflexivity].
    + eexists. split; [reflexivity | split; reflexivity].
  - exists []. simpl. rewrite app_nil_r. repeat split.
Qed.

Lemma db_write_run (c : DBCall) (op : S -> goerr * S) (w : World S) :
  db_write c op w
  = (match fst (op (db w)) with None => Ok tt | Some e => Err e end,
     mkWorld (snd (op (db w))) (now w) (trace w ++ [EvDB c (fst (op (db w)))])).
Proof. unfold db_write. destruct (op (db w)); reflexivity. Qed.

(** X1.  A pending entry that the prover has not fulfilled (also when the
    status call itself failed) and whose deadline has not passed, the
    deadline second included, is left alone by the pass of
    [ProcessPendingProofs]: no store call is made, the store is as before,
    and the pass goes on to the next entry. *)
Theorem processPending_leaves_waiting_entry (req : ent.ProofRequest) (w : World S) :
  (forall proof w1,
      GetProofStatus env (ent.ProverRequestID req) w
      <> (Ok ("PROOF_FULFILLED", proof), w1)) ->
  now w <= i64_add (ent.ProofRequestTime req) (MaxProofTime (Cfg env)) ->
  fst (processPending env req w) = Ok tt
  /\ db (snd (processPending env req w)) = db w
  /\ dbCalls (trace (snd (processPending env req w))) = dbCalls (trace w).
Proof.
  intros Hpoll Hearly.
  unfold processPending, bind, try_.
  pose proof (GetProofStatus_frame env (ent.ProverRequestID req) w) as [Hdb Hnow].
  pose proof (GetProofStatus_trace (ent.ProverRequestID req) w) as [evs [Htr [Hcalls _]]].
  destruct (GetProofStatus env (ent.ProverRequestID req) w) as [r w1] eqn:Epoll.
  simpl in Hdb, Hnow, Htr.
  assert (Hon : (now w1 >? i64_add (ent.ProofRequestTime req) (MaxProofTime (Cfg env)))
                = false).
  { rewrite Hnow. destruct (Z.gtb_spec (now w) (i64_add (ent.ProofRequestTime req)
                                                  (MaxProofTime (Cfg env)))); [lia | reflexivity]. }
  assert (Hend : dbCalls (trace w1) = dbCalls (trace w)).
  { rewrite Htr, dbCalls_app, Hcalls. apply app_nil_r. }
  destruct r as [[status proof] | err]; simpl.
  - destruct (String.eqb_spec status "PROOF_FULFILLED") as [-> | _].
    + exfalso. exact (Hpoll proof w1 eq_refl).
    + simpl. unfold time_Now_Unix. rewrite Hon. simpl. auto.
  - unfold time_Now_Unix. rewrite Hon. simpl. auto.
Qed.

(** X2.  When the prover reports [PROOF_FULFILLED] inside the deadline, the
    pass makes exactly one store call, [AddProof] with the entry's own id
    and the bytes the prover returned; the store after the pass is the one
    [AddProof] left, and the pass fails exactly when [AddProof] does. *)
Theorem processPending_stores_fulfilled_proof (req : ent.ProofRequest)
        (w w1 : World S) (proof : bytes) :
  GetProofStatus env (ent.ProverRequestID req) w = (Ok ("PROOF_FULFILLED", proof), w1) ->
  now w <= i64_add (ent.ProofRequestTime req) (MaxProofTime (Cfg env)) ->
  let outcome := AddProof (ent.ID req) proof (db w) in
  fst (processPending env req w)
  = match fst outcome with None => Ok tt | Some e => Err e end
  /\ db (snd (processPending env req w)) = snd outcome
  /\ dbCalls (trace (snd (processPending env req w)))
     = dbCalls (trace w) ++ [(CallAddProof (ent.ID req) proof, fst outcome)].
Proof.
  intros Hpoll Hearly outcome.
  pose proof (GetProofStatus_frame env (ent.ProverRequestID req) w) as [Hdb Hnow].
  pose proof (GetProofStatus_trace (ent.ProverRequestID req) w) as [evs [Htr [Hcalls _]]].
  rewrite Hpoll in Hdb, Hnow, Htr. simpl in Hdb, Hnow, Htr.
  unfold processPending, bind, try_. rewrite Hpoll. simpl.
  unfold db_AddProof. rewrite db_write_run. rewrite Hdb. fold outcome.
  assert (Hon : (now w >? i64_add (ent.ProofRequestTime req) (MaxProofTime (Cfg env)))
                = false).
  { destruct (Z.gtb_spec (now w) (i64_add (ent.ProofRequestTime req)
                                          (MaxProofTime (Cfg env)))); [lia | reflexivity]. }
  destruct (fst outcome) as [e |] eqn:Eout; simpl.
  - rewrite dbCalls_app, Htr, dbCalls_app, Hcalls, app_nil_r. auto.
  - unfold time_Now_Unix. simpl. rewrite Hnow, Hon. simpl.
    rewrite dbCalls_app, Htr, dbCalls_app, Hcalls, app_nil_r. auto.
Qed.

(** A sum of two non-negative [int64] values that passes [2^63 - 1] wraps
    to a negative number. *)
Lemma i64_add_overflow a b :
  0 <= a < 2 ^ 63 -> 0 <= b < 2 ^ 63 -> 2 ^ 63 <= a + b ->
  i64_add a b = a + b - two64 /\ i64_add a b < 0.
Proof.
  intros Ha Hb Hsum. unfold i64_add, i64.
  assert (Hmod : (a + b + 2 ^ 63) mod two64 = a + b + 2 ^ 63 - two64).
  { symmetry. apply Z.mod_unique with (q := 1); unfold two64 in *; lia. }
  rewrite Hmod. unfold two64 in *. lia.
Qed.

Lemma splitLoop_trace (req : ent.ProofRequest) (n : nat) :
  forall (a b : Z) (w : World S),
  exists evs, trace (snd (splitLoop req n a b w)) = trace w ++ evs.
Proof.
  induction n as [| n IH]; intros a b w.
  - exists []. simpl. symmetry. apply app_nil_r.
  - cbn [splitLoop]. unfold bind, db_NewEntry. rewrite db_write_run.
    destruct (fst (NewEntry "SPAN" a b (db w))) as [e |].
    + eexists. reflexivity.
    + match goal with
      | |- context [splitLoop req n ?a' ?b' ?w'] =>
          destruct (IH a' b' w') as [evs Hevs]
      end.
      rewrite Hevs. simpl. rewrite <- app_assoc. eexists. reflexivity.
Qed.

(** The first thing the timeout block does is the write to FAILED. *)
Lemma onTimeout_first_call (req : ent.ProofRequest) (w : World S) :
  exists r rest,
    dbCalls (trace (snd (onTimeout req w)))
    = dbCalls (trace w) ++ (CallUpdateProofStatus (ent.ID req) "FAILED", r) :: rest.
Proof.
  unfold onTimeout, bind at 1. unfold db_UpdateProofStatus. rewrite db_write_run.
  set (r := fst (UpdateProofStatus (now w) (ent.ID req) "FAILED" (db w))).
  destruct r as [e |] eqn:Er.
  - exists (Some e), []. simpl. rewrite dbCalls_app. reflexivity.
  - exists None.
    unfold bind, when_.
    destruct (Type_eqb (ent.Type_ req) TypeAGG).
    + unfold db_NewEntry at 1. rewrite db_write_run.
      destruct (fst (NewEntry "AGG" _ _ _)) as [e |].
      * eexists. simpl. rewrite !dbCalls_app. simpl. rewrite <- app_assoc. reflexivity.
      * match goal with
        | |- context [splitLoop req 2 ?a ?b ?w'] =>
            destruct (splitLoop_trace req 2 a b w') as [evs Hevs]
        end.
        cbv zeta. rewrite Hevs. simpl.
        eexists. rewrite !dbCalls_app. simpl. rewrite <- !app_assoc. reflexivity.
    + unfold ret.
      match goal with
      | |- context [splitLoop req 2 ?a ?b ?w'] =>
          destruct (splitLoop_trace req 2 a b w') as [evs Hevs]
      end.
      cbv zeta. rewrite Hevs. simpl.
      eexists. rewrite !dbCalls_app. simpl. rewrite <- !app_assoc. reflexivity.
Qed.

(** X3.  The deadline [ProofRequestTime + MaxProofTime] is an [int64] sum
    that wraps: when the two non-negative values add up to [2^63] or more,
    the sum is negative, so an entry the prover has not fulfilled is timed
    out at any clock reading from 0 on, and the pass writes FAILED for it. *)
Theorem processPending_deadline_overflow (req : ent.ProofRequest) (w : World S) :
  0 <= ent.ProofRequestTime req < 2 ^ 63 ->
  0 <= MaxProofTime (Cfg env) < 2 ^ 63 ->
  2 ^ 63 <= ent.ProofRequestTime req + MaxProofTime (Cfg env) ->
  0 <= now w ->
  (forall proof w1,
      GetProofStatus env (ent.ProverRequestID req) w
      <> (Ok ("PROOF_FULFILLED", proof), w1)) ->
  exists r rest,
    dbCalls (trace (snd (processPending env req w)))
    = dbCalls (trace w) ++ (CallUpdateProofStatus (ent.ID req) "FAILED", r) :: rest.
Proof.
  intros Hrt Hmax Hsum Hnow0 Hpoll.
  destruct (i64_add_overflow _ _ Hrt Hmax Hsum) as [_ Hneg].
  unfold processPending, bind, try_.
  pose proof (GetProofStatus_frame env (ent.ProverRequestID req) w) as [_ Hnow].
  pose proof (GetProofStatus_trace (ent.ProverRequestID req) w) as [evs [Htr [Hcalls _]]].
  destruct (GetProofStatus env (ent.ProverRequestID req) w) as [r w1] eqn:Epoll.
  simpl in Hnow, Htr.
  assert (Hon : (now w1 >? i64_add (ent.ProofRequestTime req) (MaxProofTime (Cfg env)))
                = true) by (rewrite Hnow; apply Z.gtb_lt; lia).
  assert (Hend : dbCalls (trace w1) = dbCalls (trace w)).
  { rewrite Htr, dbCalls_app, Hcalls. apply app_nil_r. }
  destruct (onTimeout_first_call req w1) as [r1 [rest Hfirst]].
  rewrite Hend in Hfirst.
  exists r1, rest.
  destruct r as [[status proof] | err]; simpl.
  - destruct (String.eqb_spec status "PROOF_FULFILLED") as [-> | _].
    + exfalso. exact (Hpoll proof w1 eq_refl).
    + simpl. unfold time_Now_Unix. rewrite Hon. exact Hfirst.
  - unfold time_Now_Unix. rewrite Hon. exact Hfirst.
Qed.

(** The outcomes of [RequestProofFromServer]: the store and the clock are
    as before; either nothing was sent and the call failed, or exactly the
    one POST was sent. *)
Lemma RequestProofFromServer_cases (jsonBody : Json) (w : World S) :
  let run := RequestProofFromServer env jsonBody w in
  let req := Header_Set_ContentType
               {| Method := "POST"; URL := KonaServerUrl (Cfg env);
                  ContentType := None; ReqBody := Some jsonBody |}
               "application/json" in
  db (snd run) = db w /\ now (snd run) = now w
  /\ ((exists e, fst run = Err e /\ trace (snd run) = trace w)
      \/ (trace (snd run) = trace w ++ [EvHTTP req]
          /\ match client_Do env (trace w) req with
             | Ok _ => exists proofId, fst run = Ok proofId
             | Err e => fst run = Err (Errorf "failed to send request" e)
             end)).
Proof.
  cbv zeta. unfold RequestProofFromServer, http_NewRequest.
  destruct (url_ok env (KonaServerUrl (Cfg env))).
  - unfold bind, wrap, http_Do.
    destruct (client_Do env (trace w) _) as [resp | e].
    + destruct (ReadAll resp) as [body rerr].
      destruct (json_Unmarshal_ProofResponse env body _) as [response derr].
      simpl. repeat split. right. split; [reflexivity | eexists; reflexivity].
    + simpl. repeat split. right. split; reflexivity.
  - simpl. repeat split. left. eexists. split; reflexivity.
Qed.

Lemma RequestAggProof_run (start end_ : Z) (w : World S) :
  RequestAggProof env start end_ w
  = match GetSubproofs start end_ (db w) with
    | Ok subproofs =>
        RequestProofFromServer env
          (json_Marshal_AggProofRequest {| agg_Subproofs := subproofs |}) w
    | Err e => (Err (Errorf "failed to get subproofs" e), w)
    end.
Proof.
  unfold RequestAggProof, bind, wrap, db_read.
  destruct (GetSubproofs start end_ (db w)); reflexivity.
Qed.

Lemma bind_wrap_at {A B} (msg : string) (m1 m2 : M S A) (k : A -> M S B) (w : World S) :
  m1 w = m2 w -> bind (wrap msg m1) k w = bind (wrap msg m2) k w.
Proof. intros H. unfold bind, wrap. rewrite H. reflexivity. Qed.

(** The tail of [RequestKonaProof] once the request body is known. *)
Lemma submit_then_record (p : ent.ProofRequest) (msg : string) (jsonBody : Json)
      (w : World S) :
  let run :=
    (proofId <- wrap msg (RequestProofFromServer env jsonBody) ;;
     wrap "failed to set prover request ID"
          (db_SetProverRequestID (ent.ID p) proofId)) w in
  fst run = Ok tt ->
  exists proofId,
    trace (snd run)
    = trace w
      ++ [EvHTTP {| Method := "POST"; URL := KonaServerUrl (Cfg env);
                    ContentType := Some "application/json";
                    ReqBody := Some jsonBody |};
          EvDB (CallSetProverRequestID (ent.ID p) proofId) None]
    /\ db (snd run) = snd (SetProverRequestID (ent.ID p) proofId (db w)).
Proof.
  cbv zeta.
  pose proof (RequestProofFromServer_cases jsonBody w) as Hc. cbv zeta in Hc.
  unfold bind, wrap.
  destruct (RequestProofFromServer env jsonBody w) as [[proofId | e] w1];
    simpl in Hc |- *; [| discriminate].
  destruct Hc as [Hdb [_ [[e [He _]] | [Htr _]]]]; [discriminate |].
  unfold db_SetProverRequestID. rewrite db_write_run. rewrite Hdb.
  destruct (fst (SetProverRequestID (ent.ID p) proofId (db w))) eqn:Eset;
    simpl; [discriminate |].
  intros _. exists proofId. rewrite Htr, <- app_assoc. split; reflexivity.
Qed.

(** X4.  When [RequestKonaProof] returns [nil], it has made exactly two
    calls, in this order: one POST to the prover's URL with content type
    [application/json], and one [SetProverRequestID] for the entry's own id
    that the store accepted; the store after it is the one that write
    left. *)
Theorem RequestKonaProof_success_trace (p : ent.ProofRequest) (w : World S) :
  fst (RequestKonaProof env p w) = Ok tt ->
  exists jsonBody proofId,
    trace (snd (RequestKonaProof env p w))
    = trace w
      ++ [EvHTTP {| Method := "POST"; URL := KonaServerUrl (Cfg env);
                    ContentType := Some "application/json";
                    ReqBody := Some jsonBody |};
          EvDB (CallSetProverRequestID (ent.ID p) proofId) None]
    /\ db (snd (RequestKonaProof env p w))
       = snd (SetProverRequestID (ent.ID p) proofId (db w)).
Proof.
  unfold RequestKonaProof. cbv zeta.
  destruct (ent.Type_ p).
  - unfold RequestSpanProof. intros H. eexists.
    exact (submit_then_record p _ _ w H).
  - destruct (GetSubproofs (u64_sub (ent.StartBlock p) 1) (ent.EndBlock p) (db w))
      as [subproofs | e] eqn:Esub.
    + rewrite (bind_wrap_at _ _
                 (RequestProofFromServer env
                    (json_Marshal_AggProofRequest {| agg_Subproofs := subproofs |})))
        by (rewrite RequestAggProof_run, Esub; reflexivity).
      intros H. eexists. exact (submit_then_record p _ _ w H).
    + rewrite (bind_wrap_at _ _ (fail (Errorf "failed to get subproofs" e)))
        by (rewrite RequestAggProof_run, Esub; reflexivity).
      discriminate.
Qed.

(** With the prover out of reach [RequestKonaProof] fails and leaves the
    store and the clock as they were. *)
Lemma RequestKonaProof_down (p : ent.ProofRequest) (w : World S) :
  (forall tr req, exists e, client_Do env tr req = Err e) ->
  (exists e, fst (RequestKonaProof env p w) = Err e)
  /\ db (snd (RequestKonaProof env p w)) = db w
  /\ now (snd (RequestKonaProof env p w)) = now w
  /\ dbCalls (trace (snd (RequestKonaProof env p w))) = dbCalls (trace w).
Proof.
  intros Hdown.
  assert (Hgen : forall msg jsonBody,
             let run :=
               (proofId <- wrap msg (RequestProofFromServer env jsonBody) ;;
                wrap "failed to set prover request ID"
                     (db_SetProverRequestID (ent.ID p) proofId)) w in
             (exists e, fst run = Err e) /\ db (snd run) = db w
             /\ now (snd run) = now w
             /\ dbCalls (trace (snd run)) = dbCalls (trace w)).
  { intros msg jsonBody. cbv zeta.
    pose proof (RequestProofFromServer_cases jsonBody w) as Hc. cbv zeta in Hc.
    unfold bind, wrap.
    destruct (RequestProofFromServer env jsonBody w) as [r w1]. simpl in Hc.
    destruct Hc as [Hdb [Hnow [[e [-> Htr]] | [Htr Hres]]]].
    - simpl. rewrite Htr. split; [eexists; reflexivity | auto].
    - match type of Hres with
      | match client_Do env ?tr ?req with _ => _ end =>
          destruct (Hdown tr req) as [e He]; rewrite He in Hres
      end.
      rewrite Hres. simpl. rewrite Htr, dbCalls_app. simpl. rewrite app_nil_r.
      split; [eexists; reflexivity | auto]. }
  unfold RequestKonaProof. cbv zeta.
  destruct (ent.Type_ p).
  - unfold RequestSpanProof. apply Hgen.
  - destruct (GetSubproofs (u64_sub (ent.StartBlock p) 1) (ent.EndBlock p) (db w))
      as [subproofs | e] eqn:Esub.
    + rewrite (bind_wrap_at _ _
                 (RequestProofFromServer env
                    (json_Marshal_AggProofRequest {| agg_Subproofs := subproofs |})))
        by (rewrite RequestAggProof_run, Esub; reflexivity).
      apply Hgen.
    + rewrite (bind_wrap_at _ _ (fail (Errorf "failed to get subproofs" e)))
        by (rewrite RequestAggProof_run, Esub; reflexivity).
      simpl. split; [eexists; reflexivity | auto].
Qed.
(** X5.  When the prover cannot be reached, [RequestKonaProof] returns an
    error for either type of entry and makes no store call: the store is as
    before, and no prover id is recorded. *)
Theorem RequestKonaProof_unreachable_prover (p : ent.ProofRequest) (w : World S) :
  (forall tr req, exists e, client_Do env tr req = Err e) ->
  (exists e, fst (RequestKonaProof env p w) = Err e)
  /\ db (snd (RequestKonaProof env p w)) = db w
  /\ dbCalls (trace (snd (RequestKonaProof env p w))) = dbCalls (trace w).
Proof.
  intros Hdown.
  destruct (RequestKonaProof_down p w Hdown) as [Herr [Hdb [_ Hcalls]]].
  auto.
Qed.

(** A goroutine whose step to REQ the store refuses stops there. *)
Lemma worker_refused (proof proof' p : ent.ProofRequest) (w : World S) (e : error) :
  fst (UpdateProofStatus (now w) (ent.ID proof) "REQ" (db w)) = Some e ->
  worker env proof proof' p w
  = (Ok tt,
     mkWorld (snd (UpdateProofStatus (now w) (ent.ID proof) "REQ" (db w))) (now w)
             (trace w ++ [EvDB (CallUpdateProofStatus (ent.ID proof) "REQ") (Some e)])).
Proof.
  intros Href. unfold worker, bind, try_, db_UpdateProofStatus.
  rewrite db_write_run, Href. reflexivity.
Qed.

(** X7.  A goroutine whose step to REQ was accepted and whose submission
    failed because the prover is out of reach makes exactly one more store
    call: [UpdateProofStatus(id, "FAILED")], where [id] is the id of the
    entry the loop variable holds at that moment, [proof'], whatever entry
    the REQ write was made for ([proof]) and whatever entry was submitted
    ([p]).  The call is made on the store as the REQ write left it, and the
    goroutine ends without an error. *)
Theorem worker_failed_submission_calls (proof proof' p : ent.ProofRequest)
        (w : World S) :
  fst (UpdateProofStatus (now w) (ent.ID proof) "REQ" (db w)) = None ->
  (forall tr req, exists e, client_Do env tr req = Err e) ->
  let requested := snd (UpdateProofStatus (now w) (ent.ID proof) "REQ" (db w)) in
  let failed := UpdateProofStatus (now w) (ent.ID proof') "FAILED" requested in
  fst (worker env proof proof' p w) = Ok tt
  /\ db (snd (worker env proof proof' p w)) = snd failed
  /\ dbCalls (trace (snd (worker env proof proof' p w)))
     = dbCalls (trace w)
       ++ [(CallUpdateProofStatus (ent.ID proof) "REQ", None);
           (CallUpdateProofStatus (ent.ID proof') "FAILED", fst failed)].
Proof.
  intros Hreq Hdown requested failed.
  unfold worker, bind, try_, db_UpdateProofStatus.
  rewrite db_write_run, Hreq. cbv iota beta.
  match goal with
  | |- context [RequestKonaProof env p ?w1] =>
      destruct (RequestKonaProof_down p w1 Hdown) as [[e He] [Hdb [Hnow Hcalls]]];
        destruct (RequestKonaProof env p w1) as [r w2]
  end.
  simpl in He, Hdb, Hnow, Hcalls. subst r. cbv iota beta.
  rewrite db_write_run, Hdb, Hnow. fold requested. fold failed.
  destruct (fst failed); simpl;
    rewrite dbCalls_app, Hcalls, dbCalls_app; simpl; rewrite <- app_assoc; auto.
Qed.

(** [RequestKonaProof] makes at most one request of the prover. *)
Lemma RequestKonaProof_posted_le (p : ent.ProofRequest) (w : World S) :
  (List.length (posted (trace (snd (RequestKonaProof env p w))))
   <= Datatypes.S (List.length (posted (trace w))))%nat.
Proof.
  assert (Hgen : forall msg jsonBody,
             (List.length
                (posted (trace (snd ((proofId <- wrap msg (RequestProofFromServer env jsonBody) ;;
                                      wrap "failed to set prover request ID"
                                           (db_SetProverRequestID (ent.ID p) proofId)) w))))
              <= Datatypes.S (List.length (posted (trace w))))%nat).
  { intros msg jsonBody.
    pose proof (RequestProofFromServer_cases jsonBody w) as Hc. cbv zeta in Hc.
    unfold bind, wrap.
    destruct (RequestProofFromServer env jsonBody w) as [[proofId | e] w1]; simpl in Hc |- *.
    - unfold db_SetProverRequestID.
      pose proof (db_write_posted (CallSetProverRequestID (ent.ID p) proofId)
                                  (SetProverRequestID (ent.ID p) proofId) w1) as Hq.
      destruct (db_write _ _ w1) as [[u | e] w2]; simpl in Hq |- *; rewrite Hq;
        destruct Hc as [_ [_ [[e' [He' _]] | [Htr _]]]]; try discriminate;
        rewrite Htr, posted_app, length_app; simpl; lia.
    - destruct Hc as [_ [_ [[e' [_ Htr]] | [Htr _]]]]; rewrite Htr.
      + lia.
      + rewrite posted_app, length_app. simpl. lia. }
  unfold RequestKonaProof. cbv zeta.
  destruct (ent.Type_ p).
  - unfold RequestSpanProof. apply Hgen.
  - destruct (GetSubproofs (u64_sub (ent.StartBlock p) 1) (ent.EndBlock p) (db w))
      as [subproofs | e] eqn:Esub.
    + rewrite (bind_wrap_at _ _
                 (RequestProofFromServer env
                    (json_Marshal_AggProofRequest {| agg_Subproofs := subproofs |})))
        by (rewrite RequestAggProof_run, Esub; reflexivity).
      apply Hgen.
    + rewrite (bind_wrap_at _ _ (fail (Errorf "failed to get subproofs" e)))
        by (rewrite RequestAggProof_run, Esub; reflexivity).
      simpl. lia.
Qed.

(** A goroutine never ends in an error the caller could see, and sends at
    most one request. *)
Lemma worker_effects (proof proof' p : ent.ProofRequest) (w : World S) :
  fst (worker env proof proof' p w) = Ok tt
  /\ (List.length (posted (trace (snd (worker env proof proof' p w))))
      <= Datatypes.S (List.length (posted (trace w))))%nat.
Proof.
  unfold worker, bind, try_, db_UpdateProofStatus.
  rewrite db_write_run.
  set (w1 := mkWorld _ (now w) _).
  assert (H1 : posted (trace w1) = posted (trace w)).
  { unfold w1. simpl. rewrite posted_app. simpl. apply app_nil_r. }
  destruct (fst (UpdateProofStatus (now w) (ent.ID proof) "REQ" (db w))); cbv iota beta.
  - unfold ret. cbn [fst snd]. rewrite H1. split; [reflexivity | lia].
  - pose proof (RequestKonaProof_posted_le p w1) as Hle. rewrite H1 in Hle.
    destruct (RequestKonaProof env p w1) as [[u | e] w2]; simpl in Hle |- *.
    + split; [reflexivity | exact Hle].
    + rewrite db_write_run.
      destruct (fst (UpdateProofStatus (now w2) (ent.ID proof') "FAILED" (db w2)));
        simpl; rewrite posted_app; simpl; rewrite app_nil_r; split; auto.
Qed.

Lemma workers_effects (proof : ent.ProofRequest) (queue : list ent.ProofRequest) :
  forall w : World S,
    fst (forM_ queue (worker env proof proof) w) = Ok tt
    /\ (List.length (posted (trace (snd (forM_ queue (worker env proof proof) w))))
        <= List.length (posted (trace w)) + List.length queue)%nat.
Proof.
  induction queue as [| p queue IH]; intros w.
  - simpl. split; [reflexivity | lia].
  - cbn [forM_]. unfold bind.
    destruct (worker_effects proof proof p w) as [Hok Hle].
    destruct (worker env proof proof p w) as [r w1]. simpl in Hok, Hle. subst r.
    destruct (IH w1) as [Hok' Hle']. split; [exact Hok' | simpl; lia].
Qed.

(** The AGG branch sends nothing; it fails only when the checkpoint call
    does, and then it has done nothing. *)
Lemma checkpointStep_effects (x : ent.ProofRequest) (w : World S) :
  posted (trace (snd (checkpointStep env x w))) = posted (trace w)
  /\ (fst (checkpointStep env x w) = Ok tt
      \/ (ent.Type_ x = TypeAGG
          /\ exists e, checkpointBlockHash env (trace w) = Err e
                       /\ checkpointStep env x w = (Err e, w))).
Proof.
  unfold checkpointStep, when_.
  destruct (ent.Type_ x); simpl; [auto |].
  unfold bind, try_.
  destruct (checkpointBlockHash env (trace w)) as [[blockNumber blockHash] | e].
  - unfold db_AddL1BlockInfo. rewrite db_write_run.
    destruct (fst (AddL1BlockInfo _ _ _ _ _)); simpl;
      rewrite posted_app; simpl; rewrite app_nil_r; auto.
  - split; [reflexivity |]. right. split; [reflexivity |]. exists e. auto.
Qed.

(** What [RequestKonaProof p] sends: nothing, or one request for [p]. *)
Lemma RequestKonaProof_posted_cases (p : ent.ProofRequest) (w : World S) :
  posted (trace (snd (RequestKonaProof env p w))) = posted (trace w)
  \/ exists j, requestFor p j
               /\ posted (trace (snd (RequestKonaProof env p w)))
                  = posted (trace w) ++ [j].
Proof.
  assert (Hgen : forall msg jsonBody,
             let run :=
               (proofId <- wrap msg (RequestProofFromServer env jsonBody) ;;
                wrap "failed to set prover request ID"
                     (db_SetProverRequestID (ent.ID p) proofId)) w in
             posted (trace (snd run)) = posted (trace w)
             \/ posted (trace (snd run)) = posted (trace w) ++ [jsonBody]).
  { intros msg jsonBody. cbv zeta.
    pose proof (RequestProofFromServer_cases jsonBody w) as Hc. cbv zeta in Hc.
    unfold bind, wrap.
    destruct (RequestProofFromServer env jsonBody w) as [[proofId | e] w1]; simpl in Hc |- *.
    - unfold db_SetProverRequestID.
      pose proof (db_write_posted (CallSetProverRequestID (ent.ID p) proofId)
                                  (SetProverRequestID (ent.ID p) proofId) w1) as Hq.
      destruct (db_write _ _ w1) as [[u | e] w2]; simpl in Hq |- *; rewrite Hq;
        destruct Hc as [_ [_ [[e' [He' _]] | [Htr _]]]]; try discriminate;
        rewrite Htr, posted_app; right; reflexivity.
    - destruct Hc as [_ [_ [[e' [_ Htr]] | [Htr _]]]]; rewrite Htr.
      + left. reflexivity.
      + rewrite posted_app. right. reflexivity. }
  unfold requestFor, RequestKonaProof. cbv zeta.
  destruct (ent.Type_ p).
  - unfold RequestSpanProof.
    destruct (Hgen "failed to request SPAN proof"
                   (json_Marshal_SpanProofRequest
                      {| span_Start := u64_sub (ent.StartBlock p) 1;
                         span_End := ent.EndBlock p |})) as [H | H].
    + left. exact H.
    + right. eexists. split; [reflexivity | exact H].
  - destruct (GetSubproofs (u64_sub (ent.StartBlock p) 1) (ent.EndBlock p) (db w))
      as [subproofs | e] eqn:Esub.
    + rewrite (bind_wrap_at _ _
                 (RequestProofFromServer env
                    (json_Marshal_AggProofRequest {| agg_Subproofs := subproofs |})))
        by (rewrite RequestAggProof_run, Esub; reflexivity).
      destruct (Hgen "failed to request AGG proof"
                     (json_Marshal_AggProofRequest {| agg_Subproofs := subproofs |}))
        as [H | H].
      * left. exact H.
      * right. eexists. split; [exists subproofs; reflexivity | exact H].
    + rewrite (bind_wrap_at _ _ (fail (Errorf "failed to get subproofs" e)))
        by (rewrite RequestAggProof_run, Esub; reflexivity).
      left. reflexivity.
Qed.

(** What a goroutine sends: nothing, or one request for the entry it was
    started with, whatever the loop variable holds. *)
Lemma worker_posted (proof proof' p : ent.ProofRequest) (w : World S) :
  posted (trace (snd (worker env proof proof' p w))) = posted (trace w)
  \/ exists j, requestFor p j
               /\ posted (trace (snd (worker env proof proof' p w)))
                  = posted (trace w) ++ [j].
Proof.
  unfold worker, bind, try_, db_UpdateProofStatus.
  rewrite db_write_run.
  set (w1 := mkWorld _ (now w) _).
  assert (H1 : posted (trace w1) = posted (trace w)).
  { unfold w1. simpl. rewrite posted_app. simpl. apply app_nil_r. }
  destruct (fst (UpdateProofStatus (now w) (ent.ID proof) "REQ" (db w))); cbv iota beta.
  - left. unfold ret. cbn [fst snd]. exact H1.
  - pose proof (RequestKonaProof_posted_cases p w1) as Hc. rewrite H1 in Hc.
    destruct (RequestKonaProof env p w1) as [[u | e] w2]; simpl in Hc |- *.
    + exact Hc.
    + rewrite db_write_run.
      destruct (fst (UpdateProofStatus (now w2) (ent.ID proof') "FAILED" (db w2)));
        simpl; rewrite posted_app; simpl; rewrite app_nil_r; exact Hc.
Qed.

Lemma Submissions_none (ps : list ent.ProofRequest) : Submissions ps [].
Proof.
  induction ps as [| p ps IH]; [constructor | apply Submissions_skip; exact IH].
Qed.

Lemma Submissions_app (ps qs : list ent.ProofRequest) (js ks : list Json) :
  Submissions ps js -> Submissions qs ks -> Submissions (ps ++ qs) (js ++ ks).
Proof.
  intros H Hq. induction H as [| p ps js H IH | p ps j js Hj H IH]; simpl.
  - exact Hq.
  - apply Submissions_skip. exact IH.
  - apply Submissions_send; [exact Hj | exact IH].
Qed.

(** The goroutines of a queue, run in order, send requests for entries of
    the queue, one each at most. *)
Lemma workers_submissions (proof : ent.ProofRequest) (queue : list ent.ProofRequest) :
  forall w : World S,
  exists js,
    posted (trace (snd (forM_ queue (worker env proof proof) w)))
    = posted (trace w) ++ js
    /\ Submissions queue js.
Proof.
  induction queue as [| p queue IH]; intros w.
  - exists []. simpl. rewrite app_nil_r. split; [reflexivity | constructor].
  - cbn [forM_]. unfold bind.
    destruct (worker_effects proof proof p w) as [Hok _].
    pose proof (worker_posted proof proof p w) as Hsent.
    destruct (worker env proof proof p w) as [r w1]. simpl in Hok, Hsent. subst r.
    destruct (IH w1) as [js [Hjs Hsub]].
    destruct Hsent as [Hsame | [j [Hj Hone]]].
    + exists js. rewrite Hjs, Hsame. split; [reflexivity |].
      apply Submissions_skip. exact Hsub.
    + exists (j :: js). rewrite Hjs, Hone, <- app_assoc. split; [reflexivity |].
      apply Submissions_send; assumption.
Qed.

Lemma rangeUnrequested_fail (sched : list nat) (x : ent.ProofRequest)
      (rest queue : list ent.ProofRequest) (proof : ent.ProofRequest)
      (w w1 : World S) (e : error) :
  checkpointStep env x w = (Err e, w1) ->
  rangeUnrequested env sched (x :: rest) queue proof w
  = (forM_ queue (worker env x x) ;; fail e) w1.
Proof.
  intros H. cbn [rangeUnrequested]. unfold bind at 1. unfold try_. rewrite H.
  reflexivity.
Qed.

Lemma rangeUnrequested_next (sched : list nat) (x : ent.ProofRequest)
      (rest queue : list ent.ProofRequest) (proof : ent.ProofRequest)
      (w w1 : World S) (u : unit) :
  checkpointStep env x w = (Ok u, w1) ->
  rangeUnrequested env sched (x :: rest) queue proof w
  = (forM_ (firstn (hd 0%nat sched) (queue ++ [x])) (worker env x x) ;;
     rangeUnrequested env (tl sched) rest (skipn (hd 0%nat sched) (queue ++ [x])) x) w1.
Proof.
  intros H. cbn [rangeUnrequested]. unfold bind at 1. unfold try_. rewrite H.
  reflexivity.
Qed.

(** The requests of a whole run of the loop are requests for the entries
    started or still to be started, in that order, one each at most. *)
Lemma rangeUnrequested_submissions (rest : list ent.ProofRequest) :
  forall (sched : list nat) (queue : list ent.ProofRequest) (proof : ent.ProofRequest)
         (w : World S),
  exists js,
    posted (trace (snd (rangeUnrequested env sched rest queue proof w)))
    = posted (trace w) ++ js
    /\ Submissions (queue ++ rest) js.
Proof.
  induction rest as [| x rest IH]; intros sched queue proof w.
  - cbn [rangeUnrequested]. rewrite app_nil_r. apply workers_submissions.
  - destruct (checkpointStep_effects x w) as [Hpost _].
    destruct (checkpointStep env x w) as [[u | e] w1] eqn:Estep; simpl in Hpost.
    + rewrite (rangeUnrequested_next _ _ _ _ _ _ _ _ Estep).
      unfold bind.
      set (queue' := queue ++ [x]).
      set (k := hd 0%nat sched).
      destruct (workers_effects x (firstn k queue') w1) as [Hok _].
      destruct (workers_submissions x (firstn k queue') w1) as [js1 [Hjs1 Hsub1]].
      destruct (forM_ (firstn k queue') (worker env x x) w1) as [r w2].
      simpl in Hok, Hjs1. subst r.
      destruct (IH (tl sched) (skipn k queue') x w2) as [js2 [Hjs2 Hsub2]].
      exists (js1 ++ js2). rewrite Hjs2, Hjs1, Hpost, <- app_assoc.
      split; [reflexivity |].
      replace (queue ++ x :: rest)
        with (firstn k queue' ++ skipn k queue' ++ rest).
      * apply Submissions_app; assumption.
      * rewrite app_assoc, firstn_skipn. unfold queue'.
        rewrite <- app_assoc. reflexivity.
    + rewrite (rangeUnrequested_fail _ _ _ _ _ _ _ _ Estep).
      unfold bind.
      destruct (workers_effects x queue w1) as [Hok _].
      destruct (workers_submissions x queue w1) as [js [Hjs Hsub]].
      destruct (forM_ queue (worker env x x) w1) as [r w2].
      simpl in Hok, Hjs. subst r. unfold fail. cbn [fst snd].
      exists js. rewrite Hjs, Hpost. split; [reflexivity |].
      rewrite <- (app_nil_r js). apply Submissions_app; [exact Hsub |].
      apply Submissions_none.
Qed.

(** X8.  The requests [RequestQueuedProofs] sends the prover are requests
    for entries of the list of unrequested entries, in the order of the
    list and at most one for each place in it: every goroutine sends the
    range of the entry it was started with, also when its loop variable
    has moved on to another entry.  This holds for every number of started
    goroutines that run at each step of the loop, the goroutines running
    one at a time and in the order they were started. *)
Theorem RequestQueuedProofs_one_request_per_entry
        (sched : list nat) (w : World S) (unrequested : list ent.ProofRequest) :
  GetAllUnrequestedProofs (db w) = Ok unrequested ->
  exists js,
    posted (trace (snd (RequestQueuedProofs env sched w))) = posted (trace w) ++ js
    /\ Submissions unrequested js.
Proof.
  intros Hlist. unfold RequestQueuedProofs, bind, wrap, db_read. rewrite Hlist.
  exact (rangeUnrequested_submissions unrequested sched [] zeroProofRequest w).
Qed.

Lemma rangeUnrequested_ok (rest : list ent.ProofRequest) :
  forall (sched : list nat) (queue : list ent.ProofRequest) (proof : ent.ProofRequest)
         (w : World S),
    (forall x, In x rest -> ent.Type_ x = TypeAGG ->
               forall tr, exists v, checkpointBlockHash env tr = Ok v) ->
    fst (rangeUnrequested env sched rest queue proof w) = Ok tt.
Proof.
  induction rest as [| x rest IH]; intros sched queue proof w Hcp.
  - cbn [rangeUnrequested]. apply workers_effects.
  - cbn [rangeUnrequested]. unfold bind at 1. unfold try_.
    destruct (checkpointStep_effects x w) as [_ Hres].
    destruct (checkpointStep env x w) as [[u | e] w1].
    + cbv zeta. unfold bind.
      match goal with
      | |- context [forM_ ?q (worker env x x) w1] =>
          destruct (workers_effects x q w1) as [Hok _];
            destruct (forM_ q (worker env x x) w1) as [r w2]
      end.
      simpl in Hok. subst r.
      apply IH. intros y Hy. apply Hcp. right. exact Hy.
    + exfalso. destruct Hres as [Hok | [Hty [e' [Hfail _]]]]; [discriminate |].
      destruct (Hcp x (or_introl eq_refl) Hty (trace w)) as [v Hv]. congruence.
Qed.

(** X9.  [RequestQueuedProofs] reports no failure of a goroutine: when the
    list of unrequested entries could be read and the checkpoint call
    succeeds for the AGG entries in it, the function returns [nil] under
    every schedule, whatever the store and the prover answer. *)
Theorem RequestQueuedProofs_hides_worker_failures
        (sched : list nat) (w : World S) (unrequested : list ent.ProofRequest) :
  GetAllUnrequestedProofs (db w) = Ok unrequested ->
  (forall x, In x unrequested -> ent.Type_ x = TypeAGG ->
             forall tr, exists v, checkpointBlockHash env tr = Ok v) ->
  fst (RequestQueuedProofs env sched w) = Ok tt.
Proof.
  intros Hlist Hcp. unfold RequestQueuedProofs, bind, wrap, db_read. rewrite Hlist.
  apply rangeUnrequested_ok. exact Hcp.
Qed.

Lemma rangeUnrequested_stops (before : list ent.ProofRequest) :
  forall (x : ent.ProofRequest) (after : list ent.ProofRequest) (e : error)
         (sched : list nat) (queue : list ent.ProofRequest) (proof : ent.ProofRequest)
         (w : World S),
    (forall y, In y before -> ent.Type_ y = TypeSPAN) ->
    ent.Type_ x = TypeAGG ->
    (forall tr, checkpointBlockHash env tr = Err e) ->
    let run := rangeUnrequested env sched (before ++ x :: after) queue proof w in
    fst run = Err e
    /\ exists js,
        posted (trace (snd run)) = posted (trace w) ++ js
        /\ Submissions (queue ++ before) js.
Proof.
  induction before as [| y before IH];
    intros x after e sched queue proof w Hspan Hagg Hcp; cbv zeta.
  - cbn [app].
    assert (Hrun : checkpointStep env x w = (Err e, w)).
    { unfold checkpointStep, when_. rewrite Hagg. simpl.
      unfold bind. rewrite Hcp. reflexivity. }
    rewrite (rangeUnrequested_fail _ _ _ _ _ _ _ _ Hrun).
    unfold bind.
    destruct (workers_effects x queue w) as [Hok _].
    destruct (workers_submissions x queue w) as [js [Hjs Hsub]].
    destruct (forM_ queue (worker env x x) w) as [r w2].
    simpl in Hok, Hjs. subst r. unfold fail. cbn [fst snd].
    split; [reflexivity |]. exists js. rewrite app_nil_r. auto.
  - cbn [app].
    assert (Hy : checkpointStep env y w = (Ok tt, w)).
    { unfold checkpointStep, when_.
      rewrite (Hspan y (or_introl eq_refl)). reflexivity. }
    rewrite (rangeUnrequested_next _ _ _ _ _ _ _ _ Hy).
    unfold bind.
    set (queue' := queue ++ [y]).
    set (k := hd 0%nat sched).
    destruct (workers_effects y (firstn k queue') w) as [Hok _].
    destruct (workers_submissions y (firstn k queue') w) as [js1 [Hjs1 Hsub1]].
    destruct (forM_ (firstn k queue') (worker env y y) w) as [r w2].
    simpl in Hok, Hjs1. subst r.
    destruct (IH x after e (tl sched) (skipn k queue') y w2) as [Herr [js2 [Hjs2 Hsub2]]];
      [intros z Hz; apply Hspan; right; exact Hz | exact Hagg | exact Hcp |].
    split; [exact Herr |].
    exists (js1 ++ js2). rewrite Hjs2, Hjs1, <- app_assoc. split; [reflexivity |].
    replace (queue ++ y :: before)
      with (firstn k queue' ++ skipn k queue' ++ before).
    + apply Submissions_app; assumption.
    + rewrite app_assoc, firstn_skipn. unfold queue'.
      rewrite <- app_assoc. reflexivity.
Qed.

(** X10.  When the checkpoint call fails at the first AGG entry of the
    list, [RequestQueuedProofs] returns that error, and the requests it has
    sent are requests for SPAN entries that come before that AGG in the
    list, in the order of the list and at most one for each: no request is
    sent for the AGG or for an entry after it.  This holds for every
    number of started goroutines that run at each step of the loop, the
    goroutines running one at a time and in the order they were started. *)
Theorem RequestQueuedProofs_stops_at_failed_checkpoint
        (sched : list nat) (w : World S)
        (before after : list ent.ProofRequest) (x : ent.ProofRequest) (e : error) :
  GetAllUnrequestedProofs (db w) = Ok (before ++ x :: after) ->
  (forall y, In y before -> ent.Type_ y = TypeSPAN) ->
  ent.Type_ x = TypeAGG ->
  (forall tr, checkpointBlockHash env tr = Err e) ->
  fst (RequestQueuedProofs env sched w) = Err e
  /\ exists js,
      posted (trace (snd (RequestQueuedProofs env sched w))) = posted (trace w) ++ js
      /\ Submissions before js.
Proof.
  intros Hlist Hspan Hagg Hcp.
  unfold RequestQueuedProofs, bind, wrap, db_read. rewrite Hlist.
  exact (rangeUnrequested_stops before x after e sched [] zeroProofRequest w
                                Hspan Hagg Hcp).
Qed.
End Phases.

(** ** Further properties of the derivation *)

Section Derivation.
Import proofrequest.
Context {S : Type} {DB : ProofDB S}.

Lemma chunkLoop_ext (env1 env2 : Env) :
  Cfg env1 = Cfg env2 -> float_oor env1 = float_oor env2 ->
  forall (fuel : nat) (end_ tmpStart : Z) (w : World S),
    chunkLoop env1 fuel end_ tmpStart w = chunkLoop env2 fuel end_ tmpStart w.
Proof.
  intros Hcfg Hoor fuel.
  induction fuel as [| fuel IH]; intros end_ tmpStart w; [reflexivity |].
  cbn [chunkLoop]. rewrite Hcfg, Hoor.
  destruct (db_NewEntry "SPAN" tmpStart _ w) as [[u | e] w']; [| reflexivity].
  destruct (_ =? end_); [reflexivity | apply IH].
Qed.

Lemma spanBatchLoop_alike (env1 env2 : Env) :
  Cfg env1 = Cfg env2 -> float_oor env1 = float_oor env2 ->
  (forall nb d, sameBatch (GetSpanBatchRange env1 nb d) (GetSpanBatchRange env2 nb d)) ->
  forall (fuel : nat) (nextBlock : Z) (w : World S),
    spanBatchLoop env1 fuel nextBlock w = spanBatchLoop env2 fuel nextBlock w.
Proof.
  intros Hcfg Hoor Hsame fuel.
  induction fuel as [| fuel IH]; intros nextBlock w; [reflexivity |].
  cbn [spanBatchLoop].
  specialize (Hsame nextBlock (MaxSpanBatchDeviation (Cfg env1))).
  rewrite <- Hcfg.
  destruct (GetSpanBatchRange env1 nextBlock _) as [[s1 e1] r1].
  destruct (GetSpanBatchRange env2 nextBlock _) as [[s2 e2] r2].
  destruct Hsame as [Hend Herr]. simpl in Hend, Herr. subst e2.
  assert (Hgo : match chunkLoop env1 fuel e1 nextBlock w with
                | None => None
                | Some (Err e, w') => Some (Err e, w')
                | Some (Ok _, w') => spanBatchLoop env1 fuel (u64_add e1 1) w'
                end
                = match chunkLoop env2 fuel e1 nextBlock w with
                  | None => None
                  | Some (Err e, w') => Some (Err e, w')
                  | Some (Ok _, w') => spanBatchLoop env2 fuel (u64_add e1 1) w'
                  end).
  { rewrite (chunkLoop_ext env1 env2 Hcfg Hoor).
    destruct (chunkLoop env2 fuel e1 nextBlock w) as [[[u | e] w'] |];
      [apply IH | reflexivity | reflexivity]. }
  destruct Herr as [-> | [[-> | ->] [-> | ->]]]; cbn; try rewrite Hgo; reflexivity.
Qed.

(** X11.  [DeriveNewSpanBatches] does not look at the start that
    [GetSpanBatchRange] returns, and treats [MaxDeviationExceededError] as
    it treats no error: two answers with the same end, both of which let
    the loop go on, give the same run. *)
Theorem DeriveNewSpanBatches_ignores_batch_start
        (env : Env) (g : Z -> Z -> Z * Z * goerr) (fuel : nat) (w : World S) :
  (forall nb d, sameBatch (GetSpanBatchRange env nb d) (g nb d)) ->
  DeriveNewSpanBatches (withSpanBatchRange env g) fuel w
  = DeriveNewSpanBatches env fuel w.
Proof.
  intros Hsame. unfold DeriveNewSpanBatches.
  assert (Hloop : forall nb, spanBatchLoop (withSpanBatchRange env g) fuel nb w
                             = spanBatchLoop env fuel nb w).
  { intros nb. symmetry. apply spanBatchLoop_alike; [reflexivity | reflexivity |].
    exact Hsame. }
  cbn [LatestBlockNumber FetchBatchesFromChain withSpanBatchRange].
  destruct (GetLatestEndBlock (db w)) as [v | e].
  - destruct (FetchBatchesFromChain env _); [reflexivity | apply Hloop].
  - destruct (ent_IsNotFound e); [| reflexivity].
    destruct (LatestBlockNumber env); [| reflexivity].
    destruct (FetchBatchesFromChain env _); [reflexivity | apply Hloop].
Qed.

Lemma sameBatch_refl (a : Z * Z * goerr) : sameBatch a a.
Proof. split; [reflexivity | left; reflexivity]. Qed.

(** X12.  When the store has a latest end block, [DeriveNewSpanBatches]
    does not depend on the output oracle: the run is the same whatever
    [LatestBlockNumber] would answer, an error included. *)
Theorem DeriveNewSpanBatches_reads_oracle_only_when_empty
        (env : Env) (onchain : result Z) (fuel : nat) (w : World S) (latest : Z) :
  GetLatestEndBlock (db w) = Ok latest ->
  DeriveNewSpanBatches (withLatestBlockNumber env onchain) fuel w
  = DeriveNewSpanBatches env fuel w.
Proof.
  intros Hlatest. unfold DeriveNewSpanBatches. rewrite Hlatest.
  cbn [FetchBatchesFromChain withLatestBlockNumber].
  destruct (FetchBatchesFromChain env _); [reflexivity |].
  symmetry. apply spanBatchLoop_alike; [reflexivity | reflexivity |].
  intros nb d. apply sameBatch_refl.
Qed.
(** X13.  For [next_block <= end < 2^53] and a cap of at least 1 with
    [end + cap <= 2^64], on the in-memory store with no live SPAN over
    [[next_block, end]], every chunk the loop creates except the last has
    exactly [MaxBlockRangePerSpanProof] blocks, and the number of chunks is
    [(end - next_block) / MaxBlockRangePerSpanProof + 1]. *)
Theorem chunkLoop_full_chunks (c : Store.Checks) (env : Env) :
  let cap := MaxBlockRangePerSpanProof (Cfg env) in
  forall (fuel : nat) (end_ next : Z) (w : World Store.t),
    1 <= cap -> 0 <= next -> next <= end_ -> end_ < two53 ->
    end_ + cap <= two64 ->
    (Z.to_nat (end_ - next) < fuel)%nat ->
    (forall r, In r (Store.rows (db w)) ->
               Store.conflicts TypeSPAN next end_ r = false) ->
    exists rs w',
      @chunkLoop _ (MemDB c) env fuel end_ next w = Some (Ok tt, w')
      /\ Store.rows (db w') = Store.rows (db w) ++ spanRows (Store.nextID (db w)) rs
      /\ Z.of_nat (List.length rs) = (end_ - next) / cap + 1
      /\ (forall r, In r rs -> snd r < end_ -> snd r - fst r + 1 = cap).
Proof.
  intros cap fuel.
  induction fuel as [| fuel IH]; intros end_ next w Hcap Hn Hle He Hsum Hfuel Hfree.
  - lia.
  - cbn [chunkLoop]. fold cap.
    rewrite maxEnd_exact by (unfold two53, two64 in *; lia).
    rewrite chunk_end by lia.
    set (tmpEnd := Z.min (next + cap - 1) end_).
    assert (Hte : next <= tmpEnd <= end_) by (unfold tmpEnd; lia).
    rewrite db_NewEntry_span_free.
    2:{ intros r Hr. apply (conflicts_shrink TypeSPAN next end_); [auto | lia | lia]. }
    destruct (Z.eqb_spec tmpEnd end_) as [Hlast | Hmore].
    + exists [(next, end_)]. eexists. split; [reflexivity |].
      split; [simpl; rewrite Hlast; reflexivity |].
      split.
      * assert (0 <= end_ - next < cap) by (unfold tmpEnd in Hlast; lia).
        rewrite Z.div_small by assumption. reflexivity.
      * intros r [<- | []] Hlt. simpl in Hlt. lia.
    + assert (Hcut : tmpEnd = next + cap - 1) by (unfold tmpEnd in *; lia).
      replace (u64_add tmpEnd 1) with (tmpEnd + 1)
        by (unfold u64_add; rewrite u64_small;
            [reflexivity | unfold two53, two64 in *; lia]).
      match goal with
      | |- context [chunkLoop env fuel end_ (tmpEnd + 1) ?w0] =>
          destruct (IH end_ (tmpEnd + 1) w0) as [rs [w' [Hrun [Hrows [Hcount Hfull]]]]]
      end; try lia.
      { simpl. intros r Hr. apply in_app_or in Hr. destruct Hr as [Hr | [<- | []]].
        - apply (conflicts_shrink TypeSPAN next end_); [auto | lia | lia].
        - apply conflicts_newRow_right. }
      exists ((next, tmpEnd) :: rs), w'. split; [exact Hrun |].
      split; [rewrite Hrows; simpl; rewrite <- app_assoc; reflexivity |].
      split.
      * cbn [List.length]. rewrite Nat2Z.inj_succ, Hcount.
        replace (end_ - next) with (1 * cap + (end_ - (tmpEnd + 1))) by lia.
        rewrite Z.div_add_l by lia. lia.
      * intros r [<- | Hin] Hlt; [simpl; lia | apply Hfull; assumption].
Qed.
End Derivation.

(** ** The chain side *)

(** X14.  With no beacon address configured, [FetchBatchesFromChain]
    returns [nil] without calling [fetch.Batches]: the [err] it returns in
    that branch is the [nil] of the [ChainID] call. *)
Theorem fetchBatchesFromChain_without_beacon (ch : Chain) (nextBlock : Z)
        (window : Z * Z) (chainID : Z) :
  BeaconRpc ch = "" ->
  getL1OriginAndFinalized ch nextBlock = Ok window ->
  l1Client_ChainID ch = Ok chainID ->
  fetchBatchesFromChain ch nextBlock = (Returned None, []).
Proof.
  intros Hbeacon Hwin Hid. unfold fetchBatchesFromChain.
  rewrite Hwin. destruct window as [l1Origin finalizedL1].
  rewrite Hid, Hbeacon. reflexivity.
Qed.

(** X15.  The only error [FetchBatchesFromChain] returns is the one of
    [getL1OriginAndFinalized], and then nothing was fetched.  When it
    fetches, it does so once, over the L1 window from the L1 origin of
    [nextBlock] to the finalized L1 head, with a beacon address set, and
    returns [nil] whatever the fetch found. *)
Theorem fetchBatchesFromChain_outcomes (ch : Chain) (nextBlock : Z) :
  (forall e, fst (fetchBatchesFromChain ch nextBlock) = Returned (Some e) ->
             getL1OriginAndFinalized ch nextBlock = Err e
             /\ snd (fetchBatchesFromChain ch nextBlock) = [])
  /\ (forall fetchConfig,
         In fetchConfig (snd (fetchBatchesFromChain ch nextBlock)) ->
         fetchBatchesFromChain ch nextBlock = (Returned None, [fetchConfig])
         /\ getL1OriginAndFinalized ch nextBlock
            = Ok (fetch_Start fetchConfig, fetch_End fetchConfig)
         /\ BeaconRpc ch <> "").
Proof.
  unfold fetchBatchesFromChain.
  destruct (getL1OriginAndFinalized ch nextBlock) as [[l1Origin finalizedL1] | e0].
  - destruct (l1Client_ChainID ch) as [chainID | e1].
    + destruct (String.eqb_spec (BeaconRpc ch) "") as [Hb | Hb].
      * split; [intros e H; discriminate H | intros c []].
      * destruct (beacon_GetVersion ch) as [v | e2].
        -- destruct (LoadOPStackRollupConfig ch (L2ChainID ch)) as [rollupCfg | e3].
           ++ destruct (fetch_Batches ch _) as [totalValid totalInvalid].
              split; [intros e H; discriminate H |].
              intros c [<- | []]. simpl. auto.
           ++ split; [intros e H; discriminate H | intros c []].
        -- split; [intros e H; discriminate H | intros c []].
    + split; [intros e H; discriminate H | intros c []].
  - split; [| intros c []].
    intros e H. simpl in H. inversion H. auto.
Qed.

(** X16.  For a chain the registry knows, [GenerateSpanBatchRange] hands
    [reassemble.GetSpanBatchRange] the registry's parameters, and the batch
    decoder's [reassemble] command ends with the same batch inbox, chain
    id, genesis time and block time whatever its flags say: both read the
    cache with the same derivation parameters. *)
Theorem reassemble_configs_agree (ch : Chain) (fl : ReassembleFlags)
        (rollupCfg : RollupConfig) :
  0 <= L2ChainID ch < two64 ->
  flag_l2_chain_id fl = L2ChainID ch ->
  LoadOPStackRollupConfig ch (L2ChainID ch) = Ok rollupCfg ->
  let cli := reassembleAction (LoadOPStackRollupConfig ch) fl in
  let proposer := proposerReassembleConfig ch rollupCfg in
  (forall nextBlock maxSpanBatchDeviation,
      GenerateSpanBatchRange ch nextBlock maxSpanBatchDeviation
      = Returned (reassemble_GetSpanBatchRange ch proposer rollupCfg
                                               nextBlock maxSpanBatchDeviation))
  /\ reassemble_BatchInbox cli = reassemble_BatchInbox proposer
  /\ reassemble_L2ChainID cli = reassemble_L2ChainID proposer
  /\ reassemble_L2GenesisTime cli = reassemble_L2GenesisTime proposer
  /\ reassemble_L2BlockTime cli = reassemble_L2BlockTime proposer.
Proof.
  intros Hrange Hflag Hload cli proposer.
  split.
  { intros nextBlock maxSpanBatchDeviation.
    unfold GenerateSpanBatchRange. rewrite Hload. reflexivity. }
  unfold cli, reassembleAction. cbv zeta.
  rewrite Hflag. rewrite !(u64_small (L2ChainID ch)) by exact Hrange.
  rewrite Hload. unfold proposer, proposerReassembleConfig. simpl.
  rewrite (u64_small (L2ChainID ch)) by exact Hrange.
  repeat split.
  - destruct (Z.eqb_spec (flag_inbox fl) (BatchInboxAddress rollupCfg)); simpl; auto.
  - destruct (Z.eqb_spec (flag_l2_genesis_timestamp fl) (Genesis_L2Time rollupCfg));
      simpl; auto.
  - destruct (Z.eqb_spec (flag_l2_block_time fl) (BlockTime rollupCfg)); simpl; auto.
Qed.

(** X6.  On the store that checks transitions, a goroutine stops at its
    first store call when the entry its loop variable names at that moment
    is no longer UNREQ (another goroutine was first, or the entry is
    already COMPLETE or FAILED): it sends nothing to the prover and changes
    no row.  The entry tested is the loop variable's, [proof], not the one
    the goroutine was started with, [p]; they are the same entry when the
    goroutine runs before the loop moves on. *)
Theorem worker_stops_at_refused_REQ (env : Env) (c : Store.Checks)
        (proof proof' p r : ent.ProofRequest) (w : World Store.t) :
  Store.check_transition c = true ->
  Store.findRow (ent.ID proof) (Store.rows (db w)) = Some r ->
  ent.Status r <> proofrequest.StatusUNREQ ->
  fst (@worker _ (MemDB c) env proof proof' p w) = Ok tt
  /\ db (snd (@worker _ (MemDB c) env proof proof' p w)) = db w
  /\ posted (trace (snd (@worker _ (MemDB c) env proof proof' p w))) = posted (trace w).
Proof.
  intros Hcheck Hfind Hstatus.
  assert (Href : @UpdateProofStatus _ (MemDB c) (now w) (ent.ID proof) "REQ" (db w)
                 = (Some (ErrorNew "IllegalTransition"), db w)).
  { cbn [UpdateProofStatus MemDB]. unfold Store.updateProofStatus.
    change (Store.parse_Status "REQ") with (Some proofrequest.StatusREQ).
    rewrite Hfind, Hcheck.
    destruct (ent.Status r); try reflexivity. contradiction. }
  rewrite (@worker_refused _ (MemDB c) env proof proof' p w (ErrorNew "IllegalTransition"))
    by (rewrite Href; reflexivity).
  rewrite Href. cbn [fst snd db trace].
  rewrite posted_app. simpl. rewrite app_nil_r. auto.
Qed.

(** ** The further properties at concrete inputs *)

Lemma processPending_leaves_waiting_entry_witness :
  fst (@processPending _ SpecDB Fixture.env Fixture.slowSpan Scenario.spanWaiting) = Ok tt
  /\ db (snd (@processPending _ SpecDB Fixture.env Fixture.slowSpan Scenario.spanWaiting))
     = db Scenario.spanWaiting
  /\ dbCalls (trace (snd (@processPending _ SpecDB Fixture.env Fixture.slowSpan
                                          Scenario.spanWaiting)))
     = dbCalls (trace Scenario.spanWaiting).
Proof.
  apply (@processPending_leaves_waiting_entry _ SpecDB Fixture.env
           Fixture.slowSpan Scenario.spanWaiting).
  - intros proof w1. vm_compute. discriminate.
  - vm_compute. discriminate.
Defined.

Lemma processPending_stores_fulfilled_proof_witness :
  fst (@processPending _ SpecDB Fixture.env Scenario.doneSpan Scenario.spanDoneInTime)
  = Ok tt
  /\ table (snd (@processPending _ SpecDB Fixture.env Scenario.doneSpan
                                 Scenario.spanDoneInTime))
     = [(1, proofrequest.TypeSPAN, 1001, 1100, proofrequest.StatusCOMPLETE)]
  /\ map ent.Proof_
         (Store.rows (db (snd (@processPending _ SpecDB Fixture.env Scenario.doneSpan
                                               Scenario.spanDoneInTime))))
     = [Fixture.proofBytes].
Proof.
  destruct (@processPending_stores_fulfilled_proof _ SpecDB Fixture.env
              Scenario.doneSpan Scenario.spanDoneInTime
              (snd (GetProofStatus Fixture.env "done" Scenario.spanDoneInTime))
              Fixture.proofBytes) as [Hres [Hdb _]].
  - reflexivity.
  - vm_compute. discriminate.
  - split; [rewrite Hres; reflexivity |].
    unfold table. rewrite Hdb. split; reflexivity.
Defined.

Lemma processPending_deadline_overflow_witness :
  exists r rest,
    dbCalls (trace (snd (@processPending _ SpecDB Scenario.noDeadlineEnv
                                          Scenario.recentSpan Scenario.recentlyRequested)))
    = dbCalls (trace Scenario.recentlyRequested)
      ++ (CallUpdateProofStatus 1 "FAILED", r) :: rest.
Proof.
  apply (@processPending_deadline_overflow _ SpecDB Scenario.noDeadlineEnv
           Scenario.recentSpan Scenario.recentlyRequested).
  - vm_compute. split; [discriminate | reflexivity].
  - vm_compute. split; [discriminate | reflexivity].
  - vm_compute. discriminate.
  - vm_compute. discriminate.
  - intros proof w1. vm_compute. discriminate.
Defined.

Lemma RequestKonaProof_success_trace_witness :
  exists jsonBody proofId,
    trace (snd (@RequestKonaProof _ SpecDB Fixture.env Fixture.slowSpan
                                  Fixture.spanTimedOut))
    = trace Fixture.spanTimedOut
      ++ [EvHTTP {| Method := "POST"; URL := "http://kona";
                    ContentType := Some "application/json";
                    ReqBody := Some jsonBody |};
          EvDB (CallSetProverRequestID 1 proofId) None]
    /\ db (snd (@RequestKonaProof _ SpecDB Fixture.env Fixture.slowSpan
                                  Fixture.spanTimedOut))
       = snd (@SetProverRequestID _ SpecDB 1 proofId (db Fixture.spanTimedOut)).
Proof.
  apply (@RequestKonaProof_success_trace _ SpecDB Fixture.env Fixture.slowSpan
                                         Fixture.spanTimedOut).
  reflexivity.
Defined.

Lemma RequestKonaProof_unreachable_prover_witness :
  (exists e, fst (@RequestKonaProof _ SpecDB Scenario.downEnv Fixture.queuedAgg
                                    Fixture.aggQueued) = Err e)
  /\ db (snd (@RequestKonaProof _ SpecDB Scenario.downEnv Fixture.queuedAgg
                                Fixture.aggQueued)) = db Fixture.aggQueued
  /\ dbCalls (trace (snd (@RequestKonaProof _ SpecDB Scenario.downEnv Fixture.queuedAgg
                                            Fixture.aggQueued)))
     = dbCalls (trace Fixture.aggQueued).
Proof.
  apply (@RequestKonaProof_unreachable_prover _ SpecDB Scenario.downEnv
           Fixture.queuedAgg Fixture.aggQueued).
  intros tr req. eexists. reflexivity.
Defined.

Lemma worker_stops_at_refused_REQ_witness :
  let entry2 := Fixture.row 2 proofrequest.TypeSPAN 1101 1200 proofrequest.StatusREQ "" [] in
  let run := @worker _ SpecDB Fixture.env entry2 entry2 Fixture.queuedSpan
                     Scenario.secondRequested in
  fst run = Ok tt
  /\ db (snd run) = db Scenario.secondRequested
  /\ posted (trace (snd run)) = posted (trace Scenario.secondRequested).
Proof.
  cbv zeta.
  apply (worker_stops_at_refused_REQ Fixture.env
           {| Store.check_transition := true; Store.check_duplicate := true |}
           (Fixture.row 2 proofrequest.TypeSPAN 1101 1200 proofrequest.StatusREQ "" [])
           (Fixture.row 2 proofrequest.TypeSPAN 1101 1200 proofrequest.StatusREQ "" [])
           Fixture.queuedSpan
           (Fixture.row 2 proofrequest.TypeSPAN 1101 1200 proofrequest.StatusREQ "" [])
           Scenario.secondRequested).
  - reflexivity.
  - reflexivity.
  - discriminate.
Defined.

Lemma worker_failed_submission_calls_witness :
  let entry2 := Fixture.row 2 proofrequest.TypeSPAN 1101 1200 proofrequest.StatusUNREQ "" [] in
  let run := @worker _ SpecDB Scenario.downEnv Fixture.queuedSpan entry2
                     Fixture.queuedSpan Fixture.twoQueued in
  fst run = Ok tt
  /\ table (snd run)
     = [(1, proofrequest.TypeSPAN, 1001, 1100, proofrequest.StatusREQ);
        (2, proofrequest.TypeSPAN, 1101, 1200, proofrequest.StatusUNREQ)]
  /\ dbCalls (trace (snd run))
     = [(CallUpdateProofStatus 1 "REQ", None);
        (CallUpdateProofStatus 2 "FAILED", Some (ErrorNew "IllegalTransition"))].
Proof.
  cbv zeta.
  destruct (@worker_failed_submission_calls _ SpecDB Scenario.downEnv
              Fixture.queuedSpan
              (Fixture.row 2 proofrequest.TypeSPAN 1101 1200 proofrequest.StatusUNREQ "" [])
              Fixture.queuedSpan Fixture.twoQueued)
    as [Hok [Hdb Hcalls]].
  - reflexivity.
  - intros tr req. eexists. reflexivity.
  - split; [exact Hok |]. split.
    + unfold table. rewrite Hdb. reflexivity.
    + rewrite Hcalls. reflexivity.
Defined.

Lemma RequestQueuedProofs_one_request_per_entry_witness :
  exists js,
    posted (trace (snd (@RequestQueuedProofs _ SpecDB Fixture.env [] Fixture.twoQueued)))
    = posted (trace Fixture.twoQueued) ++ js
    /\ Submissions
         [Fixture.queuedSpan;
          Fixture.row 2 proofrequest.TypeSPAN 1101 1200 proofrequest.StatusUNREQ "" []]
         js.
Proof.
  apply (@RequestQueuedProofs_one_request_per_entry _ SpecDB Fixture.env []
           Fixture.twoQueued
           [Fixture.queuedSpan;
            Fixture.row 2 proofrequest.TypeSPAN 1101 1200 proofrequest.StatusUNREQ "" []]).
  reflexivity.
Defined.

Lemma RequestQueuedProofs_hides_worker_failures_witness :
  fst (@RequestQueuedProofs _ SpecDB Scenario.downEnv [] Fixture.twoQueued) = Ok tt.
Proof.
  apply (@RequestQueuedProofs_hides_worker_failures _ SpecDB Scenario.downEnv []
           Fixture.twoQueued
           [Fixture.queuedSpan;
            Fixture.row 2 proofrequest.TypeSPAN 1101 1200 proofrequest.StatusUNREQ "" []]).
  - reflexivity.
  - intros x [<- | [<- | []]] Hagg; discriminate Hagg.
Defined.

Lemma RequestQueuedProofs_stops_at_failed_checkpoint_witness :
  fst (@RequestQueuedProofs _ SpecDB Scenario.noCheckpointEnv [] Scenario.spanThenAgg)
  = Err (ErrorNew "checkpoint failed")
  /\ exists js,
      posted (trace (snd (@RequestQueuedProofs _ SpecDB Scenario.noCheckpointEnv []
                                                Scenario.spanThenAgg)))
      = posted (trace Scenario.spanThenAgg) ++ js
      /\ Submissions [Fixture.queuedSpan] js.
Proof.
  apply (@RequestQueuedProofs_stops_at_failed_checkpoint _ SpecDB
           Scenario.noCheckpointEnv [] Scenario.spanThenAgg
           [Fixture.queuedSpan] [] Scenario.laterAgg (ErrorNew "checkpoint failed")).
  - reflexivity.
  - intros y [<- | []]. reflexivity.
  - reflexivity.
  - intros tr. reflexivity.
Defined.

Lemma DeriveNewSpanBatches_ignores_batch_start_witness :
  @DeriveNewSpanBatches _ SpecDB
     (withSpanBatchRange Fixture.env Scenario.shiftedBatches) 5 Fixture.emptyStore
  = @DeriveNewSpanBatches _ SpecDB Fixture.env 5 Fixture.emptyStore.
Proof.
  apply (@DeriveNewSpanBatches_ignores_batch_start _ SpecDB Fixture.env
           Scenario.shiftedBatches 5%nat Fixture.emptyStore).
  intros nb d. unfold sameBatch, proceeds. simpl.
  unfold Fixture.spanBatches, Scenario.shiftedBatches.
  destruct (nb =? 1001); simpl; auto.
Defined.

Lemma DeriveNewSpanBatches_reads_oracle_only_when_empty_witness :
  @DeriveNewSpanBatches _ SpecDB
     (withLatestBlockNumber Fixture.env (Err (ErrorNew "oracle unreachable")))
     5 Fixture.spanTimedOut
  = @DeriveNewSpanBatches _ SpecDB Fixture.env 5 Fixture.spanTimedOut.
Proof.
  apply (@DeriveNewSpanBatches_reads_oracle_only_when_empty _ SpecDB Fixture.env
           (Err (ErrorNew "oracle unreachable")) 5%nat Fixture.spanTimedOut 1100).
  reflexivity.
Defined.

Lemma chunkLoop_full_chunks_witness :
  exists rs w',
    @chunkLoop _ SpecDB Fixture.env 350 1350 1001 Fixture.emptyStore = Some (Ok tt, w')
    /\ Store.rows (db w') = [] ++ spanRows 1 rs
    /\ Z.of_nat (List.length rs) = (1350 - 1001) / 100 + 1
    /\ (forall r, In r rs -> snd r < 1350 -> snd r - fst r + 1 = 100).
Proof.
  apply (chunkLoop_full_chunks
           {| Store.check_transition := true; Store.check_duplicate := true |}
           Fixture.env 350%nat 1350 1001 Fixture.emptyStore).
  - simpl. lia.
  - lia.
  - lia.
  - reflexivity.
  - vm_compute. discriminate.
  - apply Nat.ltb_lt. vm_compute. reflexivity.
  - simpl. intros r [].
Defined.

Lemma fetchBatchesFromChain_without_beacon_witness :
  fetchBatchesFromChain (Scenario.chainWith "") 1001 = (Returned None, []).
Proof.
  apply (fetchBatchesFromChain_without_beacon (Scenario.chainWith "") 1001 (166, 900) 1);
    reflexivity.
Defined.

Lemma fetchBatchesFromChain_outcomes_witness :
  exists fetchConfig,
    fetchBatchesFromChain (Scenario.chainWith "http://beacon") 1001
    = (Returned None, [fetchConfig])
    /\ getL1OriginAndFinalized (Scenario.chainWith "http://beacon") 1001
       = Ok (fetch_Start fetchConfig, fetch_End fetchConfig)
    /\ fetch_Start fetchConfig = 166 /\ fetch_End fetchConfig = 900.
Proof.
  eexists.
  destruct (proj2 (fetchBatchesFromChain_outcomes (Scenario.chainWith "http://beacon") 1001)
                  _ (or_introl eq_refl)) as [Hrun [Hwin _]].
  split; [exact Hrun |]. split; [exact Hwin |]. split; reflexivity.
Defined.

Lemma reassemble_configs_agree_witness :
  reassemble_BatchInbox
    (reassembleAction Scenario.registry Scenario.staleFlags) = 255
  /\ reassemble_L2GenesisTime
       (reassembleAction Scenario.registry Scenario.staleFlags) = 1686068903
  /\ reassemble_L2BlockTime
       (reassembleAction Scenario.registry Scenario.staleFlags) = 2.
Proof.
  destruct (reassemble_configs_agree (Scenario.chainWith "") Scenario.staleFlags
              {| Genesis_L2Time := 1686068903; BlockTime := 2;
                 BatchInboxAddress := 255; Genesis_SystemConfig_BatcherAddr := 4660 |})
    as [_ [Hinbox [_ [Htime Hblock]]]].
  - vm_compute. split; [discriminate | reflexivity].
  - reflexivity.
  - reflexivity.
  - split; [exact Hinbox | split; [exact Htime | exact Hblock]].
Defined.
